(** * rosbridge_library.internal.publishers

    A shallow embedding of [publishers.py]: the publisher consistency
    listener (the time-bounded replay buffer), the [MultiPublisher] that
    shares one ROS publisher between clients, and the [PublisherManager]
    that keeps one [MultiPublisher] per topic.

    Python objects are records, the dictionaries are finite maps, and
    every method is a function from the state before the call to the
    state after it, together with what the call returned or raised and
    the effects it had on the transport.  Values read from the outside
    world during a call ([time()], [get_topic_type]) are arguments. *)

From Stdlib Require Import QArith Lqa.
From stdpp Require Import base gmap sets list strings.

Local Open Scope Q_scope.
Local Open Scope stdpp_scope.

(** ** External collaborators

    [ros_loader], [message_conversion] and the generated message classes
    live outside this module; their behaviour is a parameter. *)

Class Ros := {
  (** message classes; [is] on classes is equality here *)
  MsgClass : Type;
  MsgClass_eq_dec :: EqDecision MsgClass;
  (** the JSON-like dicts handed to [publish] *)
  Json : Type;
  (** populated message instances *)
  Inst : Type;
  (** [msg_class._type] *)
  class_type : MsgClass -> string;
  (** [msg_class.type]: [None] when the class defines no such attribute *)
  class_attr_type : MsgClass -> option string;
  (** [ros_loader.get_message_class]: [None] when it raises *)
  get_message_class : string -> option MsgClass;
  (** [inst = msg_class(); message_conversion.populate_instance(msg, inst)]:
      [None] when the conversion raises *)
  populate_instance : Json -> MsgClass -> option Inst
}.

(** ** Exceptions and outcomes *)

Inductive Exn :=
| TopicNotEstablishedException (topic : string)
| TypeConflictException (topic orig_type new_type : string)
| LoaderException (typestring : string)
| ConversionException
| AttributeError (attr : string)
| KeyError (key : string).

Inductive Outcome (A : Type) :=
| Returns (a : A)
| Raises (e : Exn).
Arguments Returns {A} a.
Arguments Raises {A} e.

Section Publishers.
Context `{R : Ros}.

(** What a call does to the transport. *)
Inductive Effect :=
| RosAdvertise (topic : string) (cls : MsgClass)  (* Publisher(topic, msg_class) *)
| RosUnregister                                   (* publisher.unregister() *)
| RosPublish (m : Inst)                           (* rospy's own publisher.publish(m) *)
| PeerPublish (peer : nat) (m : Inst).            (* peer_publish(m) *)

(** ** rospy.Publisher, as far as this module touches it *)

(** The method currently bound to [publisher.publish]. *)
Inductive PublishMethod :=
| rospy_publish
| listener_publish_override.

Record Publisher := mkPublisher {
  pub_topic : string;
  pub_class : MsgClass;
  pub_publish : PublishMethod;
  (** is the consistency listener in [impl.subscriber_listeners]? *)
  pub_listening : bool
}.

Definition new_Publisher (topic : string) (cls : MsgClass) : Publisher :=
  mkPublisher topic cls rospy_publish false.

(** ** PublisherConsistencyListener *)

Record PublisherConsistencyListener := mkListener {
  established_time : Q;
  msg_buffer : list Inst;
  attached : bool
}.

Definition timeout : Q := 1.

(** [attach] is only ever called on the listener created a line earlier
    in [MultiPublisher.__init__], for a publisher created there as well:
    [self.publish] is always rospy's own method. *)
Definition attach (now : Q) (publisher : Publisher)
  : Publisher * PublisherConsistencyListener :=
  (mkPublisher (pub_topic publisher) (pub_class publisher)
               listener_publish_override true,
   mkListener now [] true).

Definition detach (publisher : Publisher) (self : PublisherConsistencyListener)
  : Publisher * PublisherConsistencyListener :=
  (mkPublisher (pub_topic publisher) (pub_class publisher) rospy_publish false,
   mkListener (established_time self) (msg_buffer self) false).

(** [time()] returns a double; a time is taken here as the rational it
    denotes, and the subtraction is exact. *)
Definition timed_out (now : Q) (self : PublisherConsistencyListener) : bool :=
  negb (Qle_bool (now - established_time self) timeout).

(** [self.lock] guards the buffer between threads; calls are taken one
    at a time here, so the copy made under the lock is the buffer. *)
Definition peer_subscribe (now : Q) (peer : nat)
    (self : PublisherConsistencyListener)
  : PublisherConsistencyListener * list Effect :=
  if negb (timed_out now self)
  then (self, map (PeerPublish peer) (msg_buffer self))
  else (self, []).

Definition publish_override (now : Q) (message : Inst)
    (self : PublisherConsistencyListener)
  : PublisherConsistencyListener * list Effect :=
  let self' :=
    if negb (timed_out now self)
    then mkListener (established_time self) (msg_buffer self ++ [message])
                    (attached self)
    else self in
  (self', [RosPublish message]).

(** The call [publisher.publish(inst)], through whatever is bound. *)
Definition Publisher_publish (now : Q) (inst : Inst) (publisher : Publisher)
    (l : PublisherConsistencyListener)
  : PublisherConsistencyListener * list Effect :=
  match pub_publish publisher with
  | rospy_publish => (l, [RosPublish inst])
  | listener_publish_override => publish_override now inst l
  end.

(** A new subscription reaches [peer_subscribe] of the listeners in
    [impl.subscriber_listeners]. *)
Definition Publisher_new_subscription (now : Q) (peer : nat)
    (publisher : Publisher) (l : PublisherConsistencyListener)
  : PublisherConsistencyListener * list Effect :=
  if pub_listening publisher then peer_subscribe now peer l else (l, []).

(** ** MultiPublisher *)

Record MultiPublisher := mkMultiPublisher {
  oid : nat;            (* identity of the object *)
  clients : gset nat;   (* the keys of the dict; every value is True *)
  topic : string;
  msg_class : MsgClass;
  publisher : Publisher;
  listener : PublisherConsistencyListener
}.

(** Assignments to [self.clients], and to [self.publisher] and
    [self.listener] when the listener (de)attaches or buffers. *)
Definition set_clients (cs : gset nat) (self : MultiPublisher)
  : MultiPublisher :=
  mkMultiPublisher (oid self) cs (topic self) (msg_class self)
                   (publisher self) (listener self).

Definition set_transport (p : Publisher) (l : PublisherConsistencyListener)
    (self : MultiPublisher) : MultiPublisher :=
  mkMultiPublisher (oid self) (clients self) (topic self) (msg_class self)
                   p l.

(** The exception built by
    [TypeConflictException(topic, topic_type, msg_class.type)]. *)
Definition init_conflict (tp topic_type : string) (cls : MsgClass) : Exn :=
  match class_attr_type cls with
  | Some t => TypeConflictException tp topic_type t
  | None => AttributeError "type"
  end.

(** [MultiPublisher.__init__] from the point where [msg_type] is known:
    load the class, compare its [_type] with the established type, then
    create the publisher and attach a new listener to it. *)
Definition MultiPublisher_construct (now : Q) (o : nat) (tp : string)
    (cls : MsgClass) : MultiPublisher * list Effect :=
  let '(p, l) := attach now (new_Publisher tp cls) in
  (mkMultiPublisher o ∅ tp cls p l, [RosAdvertise tp cls]).

Definition MultiPublisher_load (established : option string) (now : Q)
    (o : nat) (tp : string) (msg_type : string)
  : Outcome (MultiPublisher * list Effect) :=
  match get_message_class msg_type with
  | None => Raises (LoaderException msg_type)
  | Some cls =>
    match established with
    | Some topic_type =>
      if bool_decide (topic_type ≠ class_type cls)
      then Raises (init_conflict tp topic_type cls)
      else Returns (MultiPublisher_construct now o tp cls)
    | None => Returns (MultiPublisher_construct now o tp cls)
    end
  end.

(** [MultiPublisher(topic, msg_type)].  [established] is
    [get_topic_type(topic)[0]], [now] is read by [attach], [o] is the
    identity of the object under construction. *)
Definition MultiPublisher_init (established : option string) (now : Q)
    (o : nat) (tp : string) (msg_type : option string)
  : Outcome (MultiPublisher * list Effect) :=
  match msg_type, established with
  | None, None => Raises (TopicNotEstablishedException tp)
  | None, Some topic_type =>
      MultiPublisher_load established now o tp topic_type
  | Some t, _ => MultiPublisher_load established now o tp t
  end.

(** A method of a [MultiPublisher]: outcome, object after the call,
    effects. *)
Definition Method (A : Type) : Type :=
  MultiPublisher -> Outcome A * MultiPublisher * list Effect.

Definition MultiPublisher_unregister : Method unit := fun self =>
  (Returns (), set_clients ∅ self, [RosUnregister]).

Definition verify_type (msg_type : string) : Method unit := fun self =>
  match get_message_class msg_type with
  | None => (Raises (LoaderException msg_type), self, [])
  | Some cls =>
    if bool_decide (cls = msg_class self)
    then (Returns (), self, [])
    else (Raises (TypeConflictException (topic self)
                    (class_type (msg_class self)) msg_type), self, [])
  end.

Definition MultiPublisher_publish (now_check now_send : Q) (msg : Json)
  : Method unit := fun self =>
  let '(p, l) :=
    if attached (listener self) && timed_out now_check (listener self)
    then detach (publisher self) (listener self)
    else (publisher self, listener self) in
  match populate_instance msg (msg_class self) with
  | None => (Raises ConversionException, set_transport p l self, [])
  | Some inst =>
    let '(l', effs) := Publisher_publish now_send inst p l in
    (Returns (), set_transport p l' self, effs)
  end.

Definition register_client (client_id : nat) : Method unit := fun self =>
  (Returns (), set_clients ({[client_id]} ∪ clients self) self, []).

Definition unregister_client (client_id : nat) : Method unit := fun self =>
  if bool_decide (client_id ∈ clients self)
  then (Returns (), set_clients (clients self ∖ {[client_id]}) self, [])
  else (Returns (), self, []).

Definition has_clients : Method bool := fun self =>
  (Returns (negb (size (clients self) =? 0)%nat), self, []).

(** ** PublisherManager *)

(** What a call reads from outside: the master's answer to
    [get_topic_type], and the clock as read by [attach], by the
    [timed_out] test of [MultiPublisher.publish] and by
    [publish_override]. *)
Record Env := mkEnv {
  get_topic_type : string -> option string;
  time_attach : Q;
  time_check : Q;
  time_send : Q
}.

Record World := mkWorld {
  _publishers : gmap string MultiPublisher;
  next_oid : nat;                 (* identities handed out so far *)
  ros_log : list (nat * Effect)   (* effects so far, by object *)
}.

Definition PublisherManager_init : World := mkWorld ∅ 0 [].

(** Code that may raise and whose mutations stay when it does. *)
Definition M (A : Type) : Type := World -> Outcome A * World.

#[export] Instance M_ret : MRet M := fun A a w => (Returns a, w).
#[export] Instance M_bind : MBind M := fun A B k m w =>
  match m w with
  | (Returns a, w') => k a w'
  | (Raises e, w') => (Raises e, w')
  end.

(** [topic in self._publishers] *)
Definition contains (tp : string) : M bool := fun w =>
  (Returns (bool_decide (is_Some (_publishers w !! tp))), w).

(** [self._publishers[topic] = MultiPublisher(topic, msg_type)] *)
Definition create (e : Env) (tp : string) (msg_type : option string)
  : M unit := fun w =>
  match MultiPublisher_init (get_topic_type e tp) (time_attach e)
                            (next_oid w) tp msg_type with
  | Raises ex => (Raises ex, w)
  | Returns (mp, effs) =>
    (Returns (),
     mkWorld (<[tp := mp]> (_publishers w)) (S (next_oid w))
             (ros_log w ++ map (pair (oid mp)) effs))
  end.

(** [self._publishers[topic].method(...)]: the object is looked up,
    mutated in place by the method, and stays in the dict. *)
Definition call {A} (tp : string) (method : Method A) : M A := fun w =>
  match _publishers w !! tp with
  | None => (Raises (KeyError tp), w)
  | Some mp =>
    let '(r, mp', effs) := method mp in
    (r, mkWorld (<[tp := mp']> (_publishers w)) (next_oid w)
                (ros_log w ++ map (pair (oid mp)) effs))
  end.

(** [del self._publishers[topic]] *)
Definition delitem (tp : string) : M unit := fun w =>
  match _publishers w !! tp with
  | None => (Raises (KeyError tp), w)
  | Some _ =>
    (Returns (), mkWorld (delete tp (_publishers w)) (next_oid w) (ros_log w))
  end.

Definition register (e : Env) (client_id : nat) (tp : string)
    (msg_type : option string) : M unit :=
  present ← contains tp;
  (if negb present then create e tp msg_type else mret ());;
  match msg_type with
  | Some t => call tp (verify_type t)
  | None => mret ()
  end;;
  call tp (register_client client_id).

Definition unregister (client_id : nat) (tp : string) : M unit :=
  present ← contains tp;
  if negb present then mret () else
    (call tp (unregister_client client_id);;
     has ← call tp has_clients;
     if negb has
     then (call tp MultiPublisher_unregister;; delitem tp)
     else mret ()).

(** [for topic in self._publishers.keys(): self.unregister(client_id, topic)];
    [keys()] is a list, taken before the loop starts. *)
Fixpoint unregister_each (client_id : nat) (topics : list string) : M unit :=
  match topics with
  | [] => mret ()
  | tp :: rest => unregister client_id tp;; unregister_each client_id rest
  end.

Definition unregister_all (client_id : nat) : M unit := fun w =>
  unregister_each client_id (map fst (map_to_list (_publishers w))) w.

Definition publish (e : Env) (client_id : nat) (tp : string) (msg : Json)
  : M unit :=
  register e client_id tp None;;
  call tp (MultiPublisher_publish (time_check e) (time_send e) msg).

(** ** Histories

    Sequences of calls, for the properties that speak of what happens
    over time. *)

(** What happens to one listener: its [publish_override] is called, or
    a subscriber's connection reaches its [peer_subscribe]. *)
Inductive ListenerEvent :=
| Send (now : Q) (message : Inst)
| Connect (now : Q) (peer : nat).

Definition listener_step (ev : ListenerEvent)
    (l : PublisherConsistencyListener)
  : PublisherConsistencyListener * list Effect :=
  match ev with
  | Send now message => publish_override now message l
  | Connect now peer => peer_subscribe now peer l
  end.

Definition listener_after (evs : list ListenerEvent)
    (l : PublisherConsistencyListener) : PublisherConsistencyListener :=
  fold_left (fun l ev => fst (listener_step ev l)) evs l.

(** The messages of the [Send] events that fall inside the window of a
    listener established at [est], oldest first. *)
Fixpoint sent_in_window (est : Q) (evs : list ListenerEvent) : list Inst :=
  match evs with
  | [] => []
  | Send now message :: rest =>
      if Qle_bool (now - est) timeout
      then message :: sent_in_window est rest
      else sent_in_window est rest
  | Connect _ _ :: rest => sent_in_window est rest
  end.

(** What happens to one [MultiPublisher] once it has clients: a publish,
    or a new subscription on its publisher. *)
Inductive EndpointEvent :=
| EPublish (now_check now_send : Q) (msg : Json)
| ESubscribe (now : Q) (peer : nat).

Definition endpoint_step (ev : EndpointEvent) (mp : MultiPublisher)
  : MultiPublisher * list Effect :=
  match ev with
  | EPublish now_check now_send msg =>
      let '(_, mp', effs) := MultiPublisher_publish now_check now_send msg mp in
      (mp', effs)
  | ESubscribe now peer =>
      let '(l, effs) :=
        Publisher_new_subscription now peer (publisher mp) (listener mp) in
      (set_transport (publisher mp) l mp, effs)
  end.

(** The calls a manager receives. *)
Inductive Call :=
| Register (e : Env) (client_id : nat) (tp : string) (msg_type : option string)
| Unregister (client_id : nat) (tp : string)
| UnregisterAll (client_id : nat)
| Publish (e : Env) (client_id : nat) (tp : string) (msg : Json).

Definition step (c : Call) : M unit :=
  match c with
  | Register e client_id tp msg_type => register e client_id tp msg_type
  | Unregister client_id tp => unregister client_id tp
  | UnregisterAll client_id => unregister_all client_id
  | Publish e client_id tp msg => publish e client_id tp msg
  end.

(** The world after a list of calls, whatever each of them returned or
    raised. *)
Definition run (cs : list Call) (w : World) : World :=
  fold_left (fun w c => snd (step c w)) cs w.

(** Does the call take [client_id] off [tp]? *)
Definition leaves (client_id : nat) (tp : string) (c : Call) : bool :=
  match c with
  | Unregister c' tp' => bool_decide (c' = client_id) && bool_decide (tp' = tp)
  | UnregisterAll c' => bool_decide (c' = client_id)
  | _ => false
  end.

(** Is the call a [register] or [publish] by [client_id] on [tp]? *)
Definition joins (client_id : nat) (tp : string) (c : Call) : bool :=
  match c with
  | Register _ c' tp' _ | Publish _ c' tp' _ =>
      bool_decide (c' = client_id) && bool_decide (tp' = tp)
  | _ => false
  end.

(** In [w], topic [tp] has the publisher object [o], of class [cls],
    and [client_id] is one of its clients. *)
Definition serves (w : World) (tp : string) (o : nat) (cls : MsgClass)
    (client_id : nat) : Prop :=
  exists mp, _publishers w !! tp = Some mp
    /\ oid mp = o /\ msg_class mp = cls /\ client_id ∈ clients mp.

(** The worlds a manager can be in: every publisher it holds has a
    client, sits under its own topic, and was numbered before
    [next_oid]; and no object sits under two topics. *)
Definition consistent (w : World) : Prop :=
  (forall tp mp, _publishers w !! tp = Some mp ->
     clients mp <> ∅ /\ topic mp = tp /\ (oid mp < next_oid w)%nat)
  /\ (forall tp1 tp2 mp1 mp2,
        _publishers w !! tp1 = Some mp1 ->
        _publishers w !! tp2 = Some mp2 ->
        oid mp1 = oid mp2 -> tp1 = tp2).

(** ** Further vocabulary for histories *)

(** The time an event of a listener reads. *)
Definition event_time (ev : ListenerEvent) : Q :=
  match ev with
  | Send now _ => now
  | Connect now _ => now
  end.

Definition endpoint_after (evs : list EndpointEvent) (mp : MultiPublisher)
  : MultiPublisher :=
  fold_left (fun mp ev => fst (endpoint_step ev mp)) evs mp.

(** Every clock reading of the event falls inside the window of [l]. *)
Definition in_window (l : PublisherConsistencyListener) (ev : EndpointEvent)
  : bool :=
  match ev with
  | EPublish now_check now_send _ =>
      negb (timed_out now_check l) && negb (timed_out now_send l)
  | ESubscribe now _ => negb (timed_out now l)
  end.

(** The instances of the published messages that convert to [cls],
    oldest first. *)
Fixpoint converted (cls : MsgClass) (evs : list EndpointEvent) : list Inst :=
  match evs with
  | [] => []
  | EPublish _ _ msg :: rest =>
      match populate_instance msg cls with
      | Some inst => inst :: converted cls rest
      | None => converted cls rest
      end
  | ESubscribe _ _ :: rest => converted cls rest
  end.

(** The publisher and the listener of a [MultiPublisher] agree: the
    publisher's [publish] is the listener's override, and the listener is
    among the subscriber listeners, exactly while the listener is marked
    attached; and the publisher is the one of the topic and class. *)
Definition coupled (mp : MultiPublisher) : Prop :=
  pub_publish (publisher mp) =
    (if attached (listener mp) then listener_publish_override
     else rospy_publish)
  /\ pub_listening (publisher mp) = attached (listener mp)
  /\ pub_topic (publisher mp) = topic mp
  /\ pub_class (publisher mp) = msg_class mp.

(** What [unregister] by [client_id] makes of a topic's entry: the
    publisher without this client, or no entry when no client is left. *)
Definition without_client (client_id : nat) (entry : option MultiPublisher)
  : option MultiPublisher :=
  match entry with
  | Some mp =>
      if bool_decide (clients mp ∖ {[client_id]} = ∅) then None
      else Some (set_clients (clients mp ∖ {[client_id]}) mp)
  | None => None
  end.

(** The topic a call names, if it names one. *)
Definition call_topic (c : Call) : option string :=
  match c with
  | Register _ _ tp _ | Unregister _ tp | Publish _ _ tp _ => Some tp
  | UnregisterAll _ => None
  end.



End Publishers.

(** ** A small instance

    Two message classes; the loader accepts a type string with or
    without a leading slash, as [ros_loader] does; classes define
    [_type] and no [type]. *)
Module Demo.

Inductive DemoClass := StringMsg | Int32Msg.

#[export] Instance DemoClass_eq_dec : EqDecision DemoClass.
Proof. solve_decision. Defined.

Inductive DemoJson := JData (data : string) | JNoise.

Definition demo_type (c : DemoClass) : string :=
  match c with
  | StringMsg => "std_msgs/String"
  | Int32Msg => "std_msgs/Int32"
  end.

Definition demo_load (s : string) : option DemoClass :=
  if bool_decide (s = "std_msgs/String"%string) then Some StringMsg
  else if bool_decide (s = "/std_msgs/String"%string) then Some StringMsg
  else if bool_decide (s = "std_msgs/Int32"%string) then Some Int32Msg
  else None.

Definition demo_populate (msg : DemoJson) (c : DemoClass) : option string :=
  match msg with
  | JData data => Some data
  | JNoise => None
  end.

#[export] Instance demo : Ros := {|
  MsgClass := DemoClass;
  Json := DemoJson;
  Inst := string;
  class_type := demo_type;
  class_attr_type := fun _ => None;
  get_message_class := demo_load;
  populate_instance := demo_populate
|}.

(** A master on which [/chatter] is established and nothing else. *)
Definition master (tp : string) : option string :=
  if bool_decide (tp = "/chatter"%string) then Some "std_msgs/String"%string
  else None.

Definition env (now : Q) : Env := mkEnv master now now now.

(** One client registers [/cmd] as a string topic. *)
Definition w_cmd : World :=
  snd (register (env 0) 1 "/cmd" (Some "std_msgs/String"%string)
         PublisherManager_init).

(** The publisher that is then under [/cmd]. *)
Definition mp_cmd : MultiPublisher :=
  set_clients {[1%nat]}
    (fst (MultiPublisher_construct 0 0 "/cmd" StringMsg)).

(** A history of a manager. *)
Definition calls : list Call :=
  [ Register (env 0) 1 "/cmd" (Some "std_msgs/String"%string);
    Register (env 0) 2 "/cmd" None;
    Publish (env (1 # 2)) 2 "/cmd" (JData "go");
    Unregister 1 "/cmd";
    Publish (env 3) 3 "/cmd" JNoise ].

(** A listener attached at time 0, and a history of it: a message sent
    in the window, a connection, a message sent after the window. *)
Definition l0 : PublisherConsistencyListener :=
  snd (attach 0 (new_Publisher "/cmd" StringMsg)).

Definition sends : list ListenerEvent :=
  [Send (1 # 2) "a"%string; Connect (3 # 4) 7; Send 2 "late"%string].

(** Events after the window of [l0] has closed. *)
Definition late_sends : list ListenerEvent :=
  [Connect 2 7; Send 3 "z"%string].

(** Publishes and a subscription inside the window of [mp_cmd]; the
    second message does not convert. *)
Definition early : list EndpointEvent :=
  [ EPublish (1 # 4) (1 # 4) (JData "a");
    EPublish (1 # 2) (1 # 2) JNoise;
    ESubscribe (1 # 2) 3;
    EPublish (3 # 4) (3 # 4) (JData "b") ].

(** [mp_cmd] after a publish at time 3, which detached its listener. *)
Definition mp_late : MultiPublisher :=
  snd (fst (MultiPublisher_publish 3 3 (JData "x") mp_cmd)).

(** A publish whose first clock reading is inside the window of a
    listener attached at 0 and whose second is not. *)
Definition env_straddle : Env := mkEnv master 0 (1 # 2) 2.

End Demo.

(** * Properties *)

Section Theory.
Context `{R : Ros}.

(** ** The listener *)

Lemma timed_out_established now l l' :
  established_time l' = established_time l ->
  timed_out now l' = timed_out now l.
Proof. unfold timed_out. intros ->. reflexivity. Qed.

Lemma listener_step_established ev l :
  established_time (fst (listener_step ev l)) = established_time l.
Proof.
  destruct ev as [now m|now peer]; simpl.
  - unfold publish_override. simpl. destruct (timed_out now l); reflexivity.
  - unfold peer_subscribe. destruct (timed_out now l); reflexivity.
Qed.

Lemma listener_step_attached ev l :
  attached (fst (listener_step ev l)) = attached l.
Proof.
  destruct ev as [now m|now peer]; simpl.
  - unfold publish_override. simpl. destruct (timed_out now l); reflexivity.
  - unfold peer_subscribe. destruct (timed_out now l); reflexivity.
Qed.

Lemma listener_step_buffer ev l :
  msg_buffer (fst (listener_step ev l)) =
  msg_buffer l ++ sent_in_window (established_time l) [ev].
Proof.
  destruct ev as [now m|now peer]; simpl.
  - unfold publish_override, timed_out. simpl.
    destruct (Qle_bool _ _); simpl; [reflexivity|].
    symmetry. apply app_nil_r.
  - unfold peer_subscribe. rewrite app_nil_r.
    destruct (timed_out now l); reflexivity.
Qed.

Lemma sent_in_window_cons est ev evs :
  sent_in_window est (ev :: evs) =
  sent_in_window est [ev] ++ sent_in_window est evs.
Proof.
  destruct ev as [now m|now peer]; simpl; [|reflexivity].
  destruct (Qle_bool _ _); reflexivity.
Qed.

Lemma listener_after_state evs : forall l,
  established_time (listener_after evs l) = established_time l /\
  attached (listener_after evs l) = attached l /\
  msg_buffer (listener_after evs l) =
    msg_buffer l ++ sent_in_window (established_time l) evs.
Proof.
  induction evs as [|ev evs IH]; intros l.
  - simpl. rewrite app_nil_r. auto.
  - change (listener_after (ev :: evs) l)
      with (listener_after evs (fst (listener_step ev l))).
    destruct (IH (fst (listener_step ev l))) as (He & Ha & Hb).
    rewrite He, Ha, Hb, listener_step_established, listener_step_attached,
      listener_step_buffer, (sent_in_window_cons _ ev evs), app_assoc.
    auto.
Qed.

Lemma sent_in_window_elem est m evs :
  m ∈ sent_in_window est evs ->
  exists now, Send now m ∈ evs /\ Qle_bool (now - est) timeout = true.
Proof.
  induction evs as [|[now m'|now peer] evs IH]; simpl; intros Hin.
  - inversion Hin.
  - destruct (Qle_bool (now - est) timeout) eqn:Hw.
    + apply elem_of_cons in Hin as [->|Hin].
      * exists now. split; [left|assumption].
      * destruct (IH Hin) as (now' & ? & ?). exists now'. split; [by right|done].
    + destruct (IH Hin) as (now' & ? & ?). exists now'. split; [by right|done].
  - destruct (IH Hin) as (now' & ? & ?). exists now'. split; [by right|done].
Qed.

(** C2 (buffering window).  Take any history [pre] of sends and
    connections on a listener [l].  The buffer then holds what [l] held
    plus the messages sent inside the window, in the order sent.  A
    further send forwards the message to the transport, and appends it to
    the buffer exactly when the listener is not timed out.  A further
    connection is handed, when the listener is not timed out, exactly the
    buffered messages in that order, each addressed to the connecting
    peer alone; and nothing when it is timed out.  A message that was
    only ever sent after the window is replayed to nobody. *)
Theorem buffering_window (l : PublisherConsistencyListener)
    (pre : list ListenerEvent) :
  let l' := listener_after pre l in
  let buffered := msg_buffer l ++ sent_in_window (established_time l) pre in
  msg_buffer l' = buffered
  /\ (forall now m,
        publish_override now m l' =
          (if timed_out now l
           then l'
           else mkListener (established_time l') (buffered ++ [m])
                           (attached l'),
           [RosPublish m]))
  /\ (forall now peer,
        peer_subscribe now peer l' =
          (l', if timed_out now l then []
               else map (PeerPublish peer) buffered))
  /\ (forall m,
        m ∉ msg_buffer l ->
        (forall now, Send now m ∈ pre -> timed_out now l = true) ->
        forall now peer peer',
          PeerPublish peer' m ∉ snd (peer_subscribe now peer l')).
Proof.
  intros l' buffered.
  destruct (listener_after_state pre l) as (He & Ha & Hb).
  fold l' in He, Ha, Hb. fold buffered in Hb.
  assert (Hto : forall now, timed_out now l' = timed_out now l)
    by (intros; by apply timed_out_established).
  split; [exact Hb|]. split; [|split].
  - intros now m. unfold publish_override. rewrite Hto, Hb.
    destruct (timed_out now l); reflexivity.
  - intros now peer. unfold peer_subscribe. rewrite Hto, Hb.
    destruct (timed_out now l); reflexivity.
  - intros m Hnew Hlate now peer peer'. unfold peer_subscribe.
    rewrite Hto, Hb. destruct (timed_out now l); simpl.
    + apply not_elem_of_nil.
    + intros Hin. apply list_elem_of_fmap in Hin as (m' & Heq & Hin).
      injection Heq as _ <-.
      apply elem_of_app in Hin as [Hin|Hin]; [by apply Hnew|].
      apply sent_in_window_elem in Hin as (t & Hsent & Hw).
      specialize (Hlate t Hsent). unfold timed_out in Hlate.
      rewrite Hw in Hlate. discriminate.
Qed.

(** ** The endpoint *)

Lemma set_transport_id mp : set_transport (publisher mp) (listener mp) mp = mp.
Proof. by destruct mp. Qed.

Lemma set_clients_id mp : set_clients (clients mp) mp = mp.
Proof. by destruct mp. Qed.

Lemma peer_subscribe_state now peer l : fst (peer_subscribe now peer l) = l.
Proof. unfold peer_subscribe. by destruct (timed_out now l). Qed.

Lemma new_subscription_state now peer p l :
  fst (Publisher_new_subscription now peer p l) = l.
Proof.
  unfold Publisher_new_subscription.
  destruct (pub_listening p); [apply peer_subscribe_state|reflexivity].
Qed.

Lemma publish_attached nc ns msg mp :
  attached (listener (snd (fst (MultiPublisher_publish nc ns msg mp)))) =
  attached (listener mp) && negb (timed_out nc (listener mp)).
Proof.
  unfold MultiPublisher_publish.
  destruct (attached (listener mp)) eqn:Ha; simpl.
  - destruct (timed_out nc (listener mp)); simpl.
    + destruct (populate_instance msg (msg_class mp)); reflexivity.
    + destruct (populate_instance msg (msg_class mp)); [|by simpl].
      unfold Publisher_publish.
      destruct (pub_publish (publisher mp)); simpl; [done|].
      by destruct (timed_out ns (listener mp)).
  - destruct (populate_instance msg (msg_class mp)); [|by simpl].
    unfold Publisher_publish.
    destruct (pub_publish (publisher mp)); simpl; [done|].
    destruct (timed_out ns (listener mp)); simpl; done.
Qed.

(** C7 (lazy detachment).  A publish that finds the listener attached
    and timed out detaches it before anything else: whether or not the
    conversion then raises, the publisher has its own publish method
    back, the listener is out of the subscriber listeners and marked
    detached, the buffer is as it was, and a converted message goes
    straight to the transport.  A new subscription never changes the
    endpoint, at whatever time it arrives, and replays nothing once the
    listener is timed out.  So the attached flag only ever changes in a
    publish that finds the listener attached and timed out. *)
Theorem detach_only_on_publish (mp : MultiPublisher) :
  (forall nc ns msg,
      attached (listener mp) = true ->
      timed_out nc (listener mp) = true ->
      MultiPublisher_publish nc ns msg mp =
        let mp' :=
          set_transport
            (mkPublisher (pub_topic (publisher mp)) (pub_class (publisher mp))
                         rospy_publish false)
            (mkListener (established_time (listener mp))
                        (msg_buffer (listener mp)) false) mp in
        match populate_instance msg (msg_class mp) with
        | Some inst => (Returns (), mp', [RosPublish inst])
        | None => (Raises ConversionException, mp', [])
        end)
  /\ (forall now peer,
        fst (endpoint_step (ESubscribe now peer) mp) = mp
        /\ fst (peer_subscribe now peer (listener mp)) = listener mp
        /\ (timed_out now (listener mp) = true ->
            snd (endpoint_step (ESubscribe now peer) mp) = []))
  /\ (forall ev,
        attached (listener (fst (endpoint_step ev mp))) <>
          attached (listener mp) ->
        exists nc ns msg,
          ev = EPublish nc ns msg
          /\ attached (listener mp) = true
          /\ timed_out nc (listener mp) = true
          /\ attached (listener (fst (endpoint_step ev mp))) = false).
Proof.
  split; [|split].
  - intros nc ns msg Ha Ht. unfold MultiPublisher_publish.
    rewrite Ha, Ht. simpl.
    destruct (populate_instance msg (msg_class mp)); reflexivity.
  - intros now peer. simpl.
    pose proof (new_subscription_state now peer (publisher mp) (listener mp))
      as Hs.
    destruct (Publisher_new_subscription now peer (publisher mp) (listener mp))
      as [l effs] eqn:Hn.
    simpl in Hs. subst l. simpl.
    split; [apply set_transport_id|].
    split; [apply peer_subscribe_state|].
    intros Ht. unfold Publisher_new_subscription, peer_subscribe in Hn.
    rewrite Ht in Hn. simpl in Hn.
    destruct (pub_listening (publisher mp)); congruence.
  - intros [nc ns msg|now peer] Hne.
    + exists nc, ns, msg.
      assert (Heq : fst (endpoint_step (EPublish nc ns msg) mp) =
                    snd (fst (MultiPublisher_publish nc ns msg mp))).
      { simpl. by destruct (MultiPublisher_publish nc ns msg mp) as [[? ?] ?]. }
      rewrite Heq in *. rewrite publish_attached in *.
      destruct (attached (listener mp)), (timed_out nc (listener mp));
        simpl in *; try congruence; auto.
    + exfalso. apply Hne. simpl.
      pose proof (new_subscription_state now peer (publisher mp) (listener mp))
        as Hs.
      destruct (Publisher_new_subscription now peer (publisher mp)
                  (listener mp)) as [l effs].
      simpl in Hs. by subst l.
Qed.

(** ** The manager: what each call amounts to *)

Lemma world_eta w : mkWorld (_publishers w) (next_oid w) (ros_log w) = w.
Proof. by destruct w. Qed.

Lemma call_found {A} tp (method : Method A) w mp :
  _publishers w !! tp = Some mp ->
  call tp method w =
    (fst (fst (method mp)),
     mkWorld (<[tp := snd (fst (method mp))]> (_publishers w)) (next_oid w)
             (ros_log w ++ map (pair (oid mp)) (snd (method mp)))).
Proof.
  intros Hl. unfold call. rewrite Hl.
  by destruct (method mp) as [[r mp'] effs].
Qed.

Lemma call_quiet {A} tp (method : Method A) w mp r :
  _publishers w !! tp = Some mp ->
  method mp = (r, mp, []) ->
  call tp method w = (r, w).
Proof.
  intros Hl Hm. rewrite (call_found _ _ _ _ Hl), Hm. simpl.
  rewrite insert_id by done. rewrite app_nil_r. by rewrite world_eta.
Qed.

Lemma init_returns_class est now o tp mt mp effs :
  MultiPublisher_init est now o tp mt = Returns (mp, effs) ->
  exists t, get_message_class t = Some (msg_class mp)
    /\ (mt = Some t \/ (mt = None /\ est = Some t))
    /\ mp = fst (MultiPublisher_construct now o tp (msg_class mp))
    /\ effs = [RosAdvertise tp (msg_class mp)]
    /\ (forall topic_type, est = Some topic_type ->
        topic_type = class_type (msg_class mp)).
Proof.
  unfold MultiPublisher_init. intros H.
  assert (Hload : forall t, MultiPublisher_load est now o tp t = Returns (mp, effs) ->
            get_message_class t = Some (msg_class mp)
            /\ mp = fst (MultiPublisher_construct now o tp (msg_class mp))
            /\ effs = [RosAdvertise tp (msg_class mp)]
            /\ (forall topic_type, est = Some topic_type ->
                topic_type = class_type (msg_class mp))).
  { intros t. unfold MultiPublisher_load.
    destruct (get_message_class t) as [cls|]; [|discriminate].
    destruct est as [tt0|].
    - case_bool_decide as Hd; [discriminate|].
      intros [= <- <-]. simpl. repeat split; try done.
      intros ? [= <-]. exact Hd.
    - intros [= <- <-]. simpl. repeat split; done. }
  destruct mt as [t|].
  - exists t. destruct (Hload t H) as (? & ? & ? & ?). repeat split; auto.
  - destruct est as [t|]; [|discriminate].
    exists t. destruct (Hload t H) as (? & ? & ? & ?). repeat split; auto.
Qed.

Lemma register_unfold e c tp mt w :
  register e c tp mt w =
  match _publishers w !! tp with
  | Some mp =>
    let joined :=
      (Returns (),
       mkWorld (<[tp := set_clients ({[c]} ∪ clients mp) mp]> (_publishers w))
               (next_oid w) (ros_log w)) in
    match mt with
    | None => joined
    | Some t =>
      match get_message_class t with
      | None => (Raises (LoaderException t), w)
      | Some cls =>
        if bool_decide (cls = msg_class mp) then joined
        else (Raises (TypeConflictException (topic mp)
                        (class_type (msg_class mp)) t), w)
      end
    end
  | None =>
    match MultiPublisher_init (get_topic_type e tp) (time_attach e)
                              (next_oid w) tp mt with
    | Raises ex => (Raises ex, w)
    | Returns (mp, effs) =>
      (Returns (),
       mkWorld (<[tp := set_clients ({[c]} ∪ clients mp) mp]> (_publishers w))
               (S (next_oid w))
               (ros_log w ++ map (pair (oid mp)) effs))
    end
  end.
Proof.
  unfold register, mbind, M_bind, contains.
  destruct (_publishers w !! tp) as [mp|] eqn:Hl.
  - rewrite bool_decide_true by eauto. simpl. unfold mret, M_ret.
    assert (Hjoin : call tp (register_client c) w =
      (Returns (),
       mkWorld (<[tp := set_clients ({[c]} ∪ clients mp) mp]> (_publishers w))
               (next_oid w) (ros_log w))).
    { rewrite (call_found _ _ _ _ Hl). simpl. by rewrite app_nil_r. }
    destruct mt as [t|]; [|exact Hjoin].
    destruct (get_message_class t) as [cls|] eqn:Hc.
    + case_bool_decide as Hd.
      * rewrite (call_quiet tp (verify_type t) w mp (Returns ())); [exact Hjoin|done|].
        unfold verify_type. rewrite Hc. by rewrite bool_decide_true.
      * rewrite (call_quiet tp (verify_type t) w mp
                   (Raises (TypeConflictException (topic mp)
                              (class_type (msg_class mp)) t))); [done|done|].
        unfold verify_type. rewrite Hc. by rewrite bool_decide_false.
    + rewrite (call_quiet tp (verify_type t) w mp (Raises (LoaderException t)));
        [done|done|].
      unfold verify_type. by rewrite Hc.
  - rewrite bool_decide_false by (intros [? ?]; congruence). simpl.
    unfold create.
    destruct (MultiPublisher_init _ _ _ _ _) as [[mp effs]|ex] eqn:Hi; [|done].
    set (w1 := mkWorld (<[tp:=mp]> (_publishers w)) (S (next_oid w))
                       (ros_log w ++ map (pair (oid mp)) effs)).
    assert (Hl1 : _publishers w1 !! tp = Some mp) by apply lookup_insert_eq.
    assert (Hjoin : call tp (register_client c) w1 =
      (Returns (),
       mkWorld (<[tp := set_clients ({[c]} ∪ clients mp) mp]> (_publishers w))
               (S (next_oid w)) (ros_log w ++ map (pair (oid mp)) effs))).
    { rewrite (call_found _ _ _ _ Hl1). simpl.
      by rewrite app_nil_r, insert_insert_eq. }
    destruct mt as [t|]; [|exact Hjoin].
    apply init_returns_class in Hi as (t' & Hc & [[= <-]|[? _]] & _); [|done].
    rewrite (call_quiet tp (verify_type t) w1 mp (Returns ())); [exact Hjoin|done|].
    unfold verify_type. rewrite Hc. by rewrite bool_decide_true.
Qed.

Lemma unregister_client_clients c mp :
  clients (snd (fst (unregister_client c mp))) = clients mp ∖ {[c]}
  /\ snd (fst (unregister_client c mp)) = set_clients (clients mp ∖ {[c]}) mp.
Proof.
  unfold unregister_client. case_bool_decide as Hin; simpl; [done|].
  assert (Heq : clients mp ∖ {[c]} = clients mp).
  { apply set_eq. intros x. rewrite elem_of_difference, elem_of_singleton.
    split; [tauto|]. intros Hx. split; [done|]. by intros ->. }
  rewrite Heq. split; [done|]. symmetry. apply set_clients_id.
Qed.

Lemma has_clients_empty mp :
  fst (fst (has_clients mp)) = Returns (negb (bool_decide (clients mp = ∅))).
Proof.
  unfold has_clients. simpl. f_equal. f_equal.
  destruct (Nat.eqb_spec (size (clients mp)) 0) as [Hs|Hs].
  - apply size_empty_inv in Hs. rewrite bool_decide_true; [done|].
    by apply leibniz_equiv.
  - rewrite bool_decide_false; [done|]. intros He. apply Hs.
    rewrite He. apply size_empty.
Qed.

Lemma unregister_unfold c tp w :
  unregister c tp w =
  match _publishers w !! tp with
  | None => (Returns (), w)
  | Some mp =>
    if bool_decide (clients mp ∖ {[c]} = ∅)
    then (Returns (),
          mkWorld (delete tp (_publishers w)) (next_oid w)
                  (ros_log w ++ [(oid mp, RosUnregister)]))
    else (Returns (),
          mkWorld (<[tp := set_clients (clients mp ∖ {[c]}) mp]> (_publishers w))
                  (next_oid w) (ros_log w))
  end.
Proof.
  unfold unregister, mbind, M_bind, contains.
  destruct (_publishers w !! tp) as [mp|] eqn:Hl.
  - rewrite bool_decide_true by eauto. simpl.
    rewrite (call_found _ _ _ _ Hl).
    assert (Hq : snd (unregister_client c mp) = [] /\
                 fst (fst (unregister_client c mp)) = Returns ()).
    { unfold unregister_client. by case_bool_decide. }
    destruct Hq as [Hq1 Hq2]. rewrite Hq1, Hq2.
    destruct (unregister_client_clients c mp) as [_ ->]. simpl.
    rewrite app_nil_r.
    set (mp1 := set_clients (clients mp ∖ {[c]}) mp).
    set (w1 := mkWorld (<[tp:=mp1]> (_publishers w)) (next_oid w) (ros_log w)).
    assert (Hl1 : _publishers w1 !! tp = Some mp1) by apply lookup_insert_eq.
    rewrite (call_quiet tp has_clients w1 mp1 (fst (fst (has_clients mp1))) Hl1)
      by reflexivity.
    rewrite has_clients_empty. simpl (clients mp1).
    case_bool_decide as He; simpl.
    + rewrite (call_found _ _ _ _ Hl1). simpl.
      unfold delitem. simpl. rewrite lookup_insert_eq.
      by rewrite !delete_insert_eq.
    + reflexivity.
  - rewrite bool_decide_false by (intros [? ?]; congruence). reflexivity.
Qed.

Lemma publish_unfold e c tp msg w :
  publish e c tp msg w =
  match register e c tp None w with
  | (Raises ex, w1) => (Raises ex, w1)
  | (Returns _, w1) =>
      call tp (MultiPublisher_publish (time_check e) (time_send e) msg) w1
  end.
Proof.
  unfold publish, mbind, M_bind.
  by destruct (register e c tp None w) as [[[]|ex] w1].
Qed.

(** The three ways a [register] can go. *)
Lemma register_cases e c tp mt w :
  (exists ex, register e c tp mt w = (Raises ex, w))
  \/ (exists mp,
        _publishers w !! tp = Some mp
        /\ register e c tp mt w =
             (Returns (),
              mkWorld (<[tp := set_clients ({[c]} ∪ clients mp) mp]>
                         (_publishers w))
                      (next_oid w) (ros_log w)))
  \/ (exists cls,
        _publishers w !! tp = None
        /\ register e c tp mt w =
             (Returns (),
              mkWorld (<[tp := set_clients {[c]}
                                 (fst (MultiPublisher_construct (time_attach e)
                                         (next_oid w) tp cls))]>
                         (_publishers w))
                      (S (next_oid w))
                      (ros_log w ++ [(next_oid w, RosAdvertise tp cls)]))).
Proof.
  rewrite register_unfold.
  destruct (_publishers w !! tp) as [mp|] eqn:Hl.
  - destruct mt as [t|]; [|right; left; eauto].
    destruct (get_message_class t) as [cls|]; [|left; eauto].
    case_bool_decide; [right; left; eauto|left; eauto].
  - destruct (MultiPublisher_init _ _ _ _ _) as [[mp effs]|ex] eqn:Hi;
      [|left; eauto].
    right; right.
    apply init_returns_class in Hi as (t & Hc & _ & Hmp & -> & _).
    exists (msg_class mp). split; [done|].
    rewrite Hmp at 1 2 3. simpl. rewrite union_empty_r_L.
    reflexivity.
Qed.

(** A [publish] is its [register], then the endpoint's [publish] on the
    entry the [register] left. *)
Lemma publish_cases e c tp msg w :
  (exists ex, register e c tp None w = (Raises ex, w)
              /\ publish e c tp msg w = (Raises ex, w))
  \/ (exists w1 mp1,
        register e c tp None w = (Returns (), w1)
        /\ _publishers w1 !! tp = Some mp1
        /\ c ∈ clients mp1
        /\ publish e c tp msg w =
           let r := MultiPublisher_publish (time_check e) (time_send e) msg mp1 in
           (fst (fst r),
            mkWorld (<[tp := snd (fst r)]> (_publishers w1)) (next_oid w1)
                    (ros_log w1 ++ map (pair (oid mp1)) (snd r)))).
Proof.
  rewrite publish_unfold.
  destruct (register_cases e c tp None w)
    as [[ex Hr]|[(mp & Hl & Hr)|(cls & Hl & Hr)]]; rewrite Hr.
  - left. eauto.
  - right. eexists _, _. split; [reflexivity|].
    split; [apply lookup_insert_eq|]. split; [simpl; set_solver|].
    erewrite call_found; [reflexivity|]. apply lookup_insert_eq.
  - right. eexists _, _. split; [reflexivity|].
    split; [apply lookup_insert_eq|]. split; [simpl; set_solver|].
    erewrite call_found; [reflexivity|]. apply lookup_insert_eq.
Qed.

Lemma publish_object nc ns msg mp :
  let mp' := snd (fst (MultiPublisher_publish nc ns msg mp)) in
  oid mp' = oid mp /\ topic mp' = topic mp /\ msg_class mp' = msg_class mp
  /\ clients mp' = clients mp.
Proof.
  unfold MultiPublisher_publish.
  destruct (attached (listener mp) && timed_out nc (listener mp)); simpl;
    destruct (populate_instance msg (msg_class mp)); simpl; auto;
    match goal with
    | |- context [Publisher_publish ?a ?b ?c ?d] =>
        destruct (Publisher_publish a b c d)
    end; simpl; auto.
Qed.

Lemma publish_raises nc ns msg mp ex :
  fst (fst (MultiPublisher_publish nc ns msg mp)) = Raises ex ->
  ex = ConversionException
  /\ populate_instance msg (msg_class mp) = None
  /\ snd (MultiPublisher_publish nc ns msg mp) = []
  /\ exists p l,
       snd (fst (MultiPublisher_publish nc ns msg mp)) = set_transport p l mp.
Proof.
  unfold MultiPublisher_publish.
  destruct (attached (listener mp) && timed_out nc (listener mp)); simpl;
    destruct (populate_instance msg (msg_class mp)); simpl;
    try match goal with
    | |- context [Publisher_publish ?a ?b ?c ?d] =>
        destruct (Publisher_publish a b c d)
    end; simpl; try discriminate; intros [= <-]; eauto 10.
Qed.

(** ** Failures *)

Lemma init_raises est now o tp mt ex :
  MultiPublisher_init est now o tp mt = Raises ex ->
  ex <> ConversionException /\ forall k, ex <> KeyError k.
Proof.
  assert (Hload : forall t, MultiPublisher_load est now o tp t = Raises ex ->
            ex <> ConversionException /\ forall k, ex <> KeyError k).
  { intros t. unfold MultiPublisher_load, init_conflict.
    destruct (get_message_class t) as [cls|]; [|by intros [= <-]].
    destruct est as [tt0|]; [|discriminate].
    case_bool_decide; [|discriminate].
    destruct (class_attr_type cls); by intros [= <-]. }
  unfold MultiPublisher_init.
  destruct mt as [t|]; [apply Hload|].
  destruct est as [t|]; [apply Hload|]. by intros [= <-].
Qed.

Lemma register_raises e c tp mt w ex w' :
  register e c tp mt w = (Raises ex, w') ->
  w' = w /\ ex <> ConversionException /\ forall k, ex <> KeyError k.
Proof.
  rewrite register_unfold.
  destruct (_publishers w !! tp) as [mp|].
  - destruct mt as [t|]; [|discriminate].
    destruct (get_message_class t) as [cls|].
    + case_bool_decide; [discriminate|]. by intros [= <- <-].
    + by intros [= <- <-].
  - destruct (MultiPublisher_init _ _ _ _ _) as [[mp effs]|ex'] eqn:Hi;
      [discriminate|].
    intros [= <- <-]. split; [done|]. by eapply init_raises.
Qed.

(** C3, as the code has it (failure and state).  A [register] that
    raises leaves the world exactly as it found it, whatever it raised.
    A [publish] that raises either raised in its implicit [register], and
    then the world is as it was, or raised in the conversion of the
    message; in that case what the implicit [register] did stays: the
    topic has its publisher, the caller is among its clients, and only
    the publisher and listener fields of that entry may differ from the
    world the [register] left. *)
Theorem failed_call_state e c tp w ex w' :
  (forall mt, register e c tp mt w = (Raises ex, w') -> w' = w)
  /\ (forall msg, publish e c tp msg w = (Raises ex, w') ->
        (ex <> ConversionException
         /\ register e c tp None w = (Raises ex, w) /\ w' = w)
        \/ (ex = ConversionException
            /\ exists w1 mp1 p l,
                 register e c tp None w = (Returns (), w1)
                 /\ _publishers w1 !! tp = Some mp1
                 /\ c ∈ clients mp1
                 /\ populate_instance msg (msg_class mp1) = None
                 /\ w' = mkWorld (<[tp := set_transport p l mp1]>
                                    (_publishers w1))
                                 (next_oid w1) (ros_log w1))).
Proof.
  split.
  - intros mt H. by apply register_raises in H as [-> _].
  - intros msg H.
    destruct (publish_cases e c tp msg w)
      as [(ex' & Hr & Hp)|(w1 & mp1 & Hr & Hl & Hc & Hp)];
      rewrite Hp in H.
    + injection H as <- <-. left.
      split; [|done]. by apply register_raises in Hr as (_ & ? & _).
    + simpl in H. injection H as Hex <-.
      apply publish_raises in Hex as (-> & Hpop & Heff & p & l & Hmp).
      right. split; [done|]. exists w1, mp1, p, l.
      rewrite Heff, Hmp. simpl. by rewrite app_nil_r.
Qed.

(** ** Types *)

(** C4 (a second register with a type).  After a
    [register] with type [T1] has returned, the topic has a publisher
    whose class is the one [T1] loads to, with the caller among its
    clients.  A second [register] with type [T2] then goes by what [T2]
    loads to: the loader's error when it does not load, a type conflict
    when it loads to another class, and in both cases the world stays as
    it was; when it loads to the same class, as [T1] itself does, the
    call returns and the second client is added. *)
Theorem second_register e1 e2 c1 c2 tp T1 w w1 :
  register e1 c1 tp (Some T1) w = (Returns (), w1) ->
  exists mp,
    _publishers w1 !! tp = Some mp
    /\ get_message_class T1 = Some (msg_class mp)
    /\ c1 ∈ clients mp
    /\ (let joined :=
          (Returns (),
           mkWorld (<[tp := set_clients ({[c2]} ∪ clients mp) mp]>
                      (_publishers w1))
                   (next_oid w1) (ros_log w1)) in
        register e2 c2 tp (Some T1) w1 = joined
        /\ forall T2,
             match get_message_class T2 with
             | None =>
                 register e2 c2 tp (Some T2) w1 =
                   (Raises (LoaderException T2), w1)
             | Some cls2 =>
                 if bool_decide (cls2 = msg_class mp)
                 then register e2 c2 tp (Some T2) w1 = joined
                 else register e2 c2 tp (Some T2) w1 =
                        (Raises (TypeConflictException (topic mp)
                                   (class_type (msg_class mp)) T2), w1)
             end).
Proof.
  intros H1.
  assert (Hmp : exists mp, _publishers w1 !! tp = Some mp
                  /\ get_message_class T1 = Some (msg_class mp)
                  /\ c1 ∈ clients mp).
  { rewrite register_unfold in H1.
    destruct (_publishers w !! tp) as [mp|] eqn:Hl.
    - destruct (get_message_class T1) as [cls|] eqn:Hc; [|discriminate].
      case_bool_decide as Hd; [|discriminate]. injection H1 as <-.
      eexists. split; [apply lookup_insert_eq|]. simpl.
      split; [by rewrite Hd|set_solver].
    - destruct (MultiPublisher_init _ _ _ _ _) as [[mp effs]|ex] eqn:Hi;
        [|discriminate].
      injection H1 as <-.
      apply init_returns_class in Hi as (t & Hc & [[= <-]|[? _]] & _); [|done].
      eexists. split; [apply lookup_insert_eq|]. simpl.
      split; [done|set_solver]. }
  destruct Hmp as (mp & Hl & Hc & Hin). exists mp.
  split; [done|]. split; [done|]. split; [done|].
  assert (Hall : forall T2,
    match get_message_class T2 with
    | None => register e2 c2 tp (Some T2) w1 = (Raises (LoaderException T2), w1)
    | Some cls2 =>
        if bool_decide (cls2 = msg_class mp)
        then register e2 c2 tp (Some T2) w1 =
          (Returns (),
           mkWorld (<[tp := set_clients ({[c2]} ∪ clients mp) mp]>
                      (_publishers w1))
                   (next_oid w1) (ros_log w1))
        else register e2 c2 tp (Some T2) w1 =
               (Raises (TypeConflictException (topic mp)
                          (class_type (msg_class mp)) T2), w1)
    end).
  { intros T2. rewrite register_unfold, Hl.
    destruct (get_message_class T2) as [cls2|]; [|done].
    by case_bool_decide. }
  split; [|exact Hall].
  specialize (Hall T1). rewrite Hc in Hall.
  by rewrite bool_decide_true in Hall.
Qed.

Lemma load_unfold est now o tp t :
  MultiPublisher_load est now o tp t =
  match get_message_class t with
  | None => Raises (LoaderException t)
  | Some cls =>
    match est with
    | Some topic_type =>
      if bool_decide (class_type cls = topic_type)
      then Returns (MultiPublisher_construct now o tp cls)
      else Raises (init_conflict tp topic_type cls)
    | None => Returns (MultiPublisher_construct now o tp cls)
    end
  end.
Proof.
  unfold MultiPublisher_load.
  destruct (get_message_class t) as [cls|]; [|done].
  destruct est as [topic_type|]; [|done].
  repeat case_bool_decide; congruence.
Qed.

(** C5 (creation and types), where the code departs from it.  Creation
    compares the established type with the [_type] of the class the
    supplied type loads to and, when they differ, sets out to raise
    [TypeConflictException]; but it builds that exception from the
    attribute [type] of the class, where the comparison one line above
    reads [_type].  For a class that has no attribute [type], creation
    with a supplied type that loads to a class of another type than the
    established one raises [AttributeError], and no
    [TypeConflictException]. *)
Theorem creation_conflict_slip est now o tp T t cls :
  est = Some T ->
  get_message_class t = Some cls ->
  class_type cls <> T ->
  class_attr_type cls = None ->
  MultiPublisher_init est now o tp (Some t) = Raises (AttributeError "type")
  /\ forall a b c,
       MultiPublisher_init est now o tp (Some t) <>
         Raises (TypeConflictException a b c).
Proof.
  intros -> Hc Hne Hattr.
  assert (H : MultiPublisher_init (Some T) now o tp (Some t) =
              Raises (AttributeError "type")).
  { simpl. rewrite load_unfold, Hc.
    rewrite bool_decide_false by done.
    unfold init_conflict. by rewrite Hattr. }
  split; [exact H|]. intros a b c. by rewrite H.
Qed.

(** C10 (compatibility goes by the loaded class).  [verify_type]
    returns exactly when the type string loads to the very class of the
    publisher, and raises a type conflict when it loads to any other
    class.  Creation on a topic with an established type returns exactly
    when the supplied string loads to a class whose [_type] is the
    established type.  Two strings that load to the same class are
    treated alike by both.  So a [register] with a type returns, on a
    topic with a publisher, exactly when the string loads to the
    publisher's class, and on a topic without one exactly when it loads
    to a class whose [_type] is the established type, if there is one:
    how the string is spelled does not matter. *)
Theorem compatibility_by_class (t : string) :
  (forall mp,
      fst (fst (verify_type t mp)) = Returns () <->
      get_message_class t = Some (msg_class mp))
  /\ (forall mp cls,
        get_message_class t = Some cls ->
        cls <> msg_class mp ->
        verify_type t mp =
          (Raises (TypeConflictException (topic mp)
                     (class_type (msg_class mp)) t), mp, []))
  /\ (forall T now o tp,
        (exists r,
            MultiPublisher_init (Some T) now o tp (Some t) = Returns r) <->
        (exists cls, get_message_class t = Some cls /\ class_type cls = T))
  /\ (forall t',
        get_message_class t' = get_message_class t ->
        is_Some (get_message_class t) ->
        (forall est now o tp,
            MultiPublisher_init est now o tp (Some t') =
            MultiPublisher_init est now o tp (Some t))
        /\ (forall mp,
              fst (fst (verify_type t' mp)) = Returns () <->
              fst (fst (verify_type t mp)) = Returns ()))
  /\ (forall e c tp w,
        fst (register e c tp (Some t) w) = Returns () <->
        match _publishers w !! tp with
        | Some mp => get_message_class t = Some (msg_class mp)
        | None =>
            exists cls,
              get_message_class t = Some cls
              /\ match get_topic_type e tp with
                 | Some T => class_type cls = T
                 | None => True
                 end
        end).
Proof.
  assert (Hverify : forall s mp,
            fst (fst (verify_type s mp)) = Returns () <->
            get_message_class s = Some (msg_class mp)).
  { intros s mp. unfold verify_type.
    destruct (get_message_class s) as [cls|]; simpl; [|split; discriminate].
    case_bool_decide as Hd; simpl.
    - split; [by rewrite Hd|done].
    - split; [discriminate|]. by intros [= ->]. }
  split; [exact (Hverify t)|]. split; [|split; [|split]].
  - intros mp cls Hc Hne. unfold verify_type. rewrite Hc.
    by rewrite bool_decide_false.
  - intros T now o tp. simpl. rewrite load_unfold.
    destruct (get_message_class t) as [cls|].
    + case_bool_decide as Hd.
      * split; [intros _; eauto|intros _; eauto].
      * split; [by intros [r ?]|]. intros (cls' & [= <-] & ?). done.
    + split; [by intros [r ?]|]. by intros (cls' & ? & _).
  - intros t' Heq [cls Hc]. split.
    + intros est now o tp. simpl. by rewrite !load_unfold, Heq, Hc.
    + intros mp. by rewrite !Hverify, Heq.
  - intros e c tp w. rewrite register_unfold.
    destruct (_publishers w !! tp) as [mp|].
    + cbv zeta. destruct (get_message_class t) as [cls|]; simpl;
        [|split; discriminate].
      case_bool_decide as Hd; simpl.
      * split; [by rewrite Hd|done].
      * split; [discriminate|]. by intros [= ->].
    + simpl. rewrite load_unfold.
      destruct (get_message_class t) as [cls|]; simpl.
      * destruct (get_topic_type e tp) as [T|]; simpl.
        -- case_bool_decide as Hd; simpl.
           ++ split; [eauto|done].
           ++ split; [discriminate|]. intros (cls' & [= <-] & ?). done.
        -- split; [eauto|done].
      * split; [discriminate|]. by intros (cls' & ? & _).
Qed.

(** ** Unregistering *)

Lemma difference_singleton_empty (X : gset nat) c :
  X ∖ {[c]} = ∅ <-> X = ∅ \/ X = {[c]}.
Proof.
  split.
  - intros H. destruct (decide (c ∈ X)) as [Hin|Hin].
    + right. apply set_eq. intros x. rewrite elem_of_singleton. split.
      * intros Hx. destruct (decide (x = c)) as [->|Hne]; [done|].
        assert (Hd : x ∈ X ∖ {[c]})
          by (apply elem_of_difference; rewrite elem_of_singleton; done).
        rewrite H in Hd. by apply not_elem_of_empty in Hd.
      * by intros ->.
    + left. apply set_eq. intros x. split.
      * intros Hx.
        assert (Hd : x ∈ X ∖ {[c]}).
        { apply elem_of_difference. rewrite elem_of_singleton.
          split; [done|]. by intros ->. }
        by rewrite H in Hd.
      * intros Hx. by apply not_elem_of_empty in Hx.
  - intros [->| ->]; apply set_eq; intros x; split; intros Hx;
      try (by apply not_elem_of_empty in Hx);
      apply elem_of_difference in Hx as [Hx Hn];
      first [by apply not_elem_of_empty in Hx | done].
Qed.

Lemma difference_absent (X : gset nat) c : c ∉ X -> X ∖ {[c]} = X.
Proof.
  intros Hin. apply set_eq. intros x.
  rewrite elem_of_difference, elem_of_singleton.
  split; [tauto|]. intros Hx. split; [done|]. by intros ->.
Qed.

Lemma union_present (X : gset nat) c : c ∈ X -> {[c]} ∪ X = X.
Proof.
  intros Hin. apply set_eq. intros x.
  rewrite elem_of_union, elem_of_singleton.
  split; [by intros [->|?]|auto].
Qed.

(** C8 (unregistering what is not registered).  [unregister] never
    raises.  On a topic without a publisher it changes nothing; on a
    topic whose publisher has clients, the caller not among them, it
    changes nothing either. *)
Theorem unregister_noop c tp w :
  (exists w', unregister c tp w = (Returns (), w'))
  /\ (_publishers w !! tp = None -> unregister c tp w = (Returns (), w))
  /\ (forall mp,
        _publishers w !! tp = Some mp ->
        c ∉ clients mp ->
        clients mp <> ∅ ->
        unregister c tp w = (Returns (), w)).
Proof.
  rewrite unregister_unfold. split; [|split].
  - destruct (_publishers w !! tp) as [mp|]; [|eauto].
    case_bool_decide; eauto.
  - by intros ->.
  - intros mp Hl Hin Hne. rewrite Hl, (difference_absent _ _ Hin).
    rewrite bool_decide_false by done.
    rewrite set_clients_id, insert_id by done. by rewrite world_eta.
Qed.

(** C9 (no multiplicity).  Registering a client that is already a
    client of a publisher changes nothing.  So when the same client has
    registered twice on a topic, the second call left the world as the
    first one made it, and one [unregister] takes the client out: the
    publisher is unregistered and its entry deleted when it had no other
    client, and stays, without this client, when it had. *)
Theorem register_is_idempotent c tp :
  (forall mp, c ∈ clients mp -> register_client c mp = (Returns (), mp, []))
  /\ (forall e1 e2 mt1 mt2 w w1 w2,
        register e1 c tp mt1 w = (Returns (), w1) ->
        register e2 c tp mt2 w1 = (Returns (), w2) ->
        w2 = w1
        /\ exists mp,
             _publishers w2 !! tp = Some mp
             /\ c ∈ clients mp
             /\ (c ∉ clients mp ∖ {[c]})
             /\ unregister c tp w2 =
                (Returns (),
                 if bool_decide (clients mp = {[c]})
                 then mkWorld (delete tp (_publishers w2)) (next_oid w2)
                              (ros_log w2 ++ [(oid mp, RosUnregister)])
                 else mkWorld (<[tp := set_clients (clients mp ∖ {[c]}) mp]>
                                 (_publishers w2))
                              (next_oid w2) (ros_log w2))).
Proof.
  split.
  - intros mp Hin. unfold register_client.
    by rewrite (union_present _ _ Hin), set_clients_id.
  - intros e1 e2 mt1 mt2 w w1 w2 H1 H2.
    assert (Hmp : exists mp, _publishers w1 !! tp = Some mp /\ c ∈ clients mp).
    { destruct (register_cases e1 c tp mt1 w)
        as [[ex Hr]|[(mp & Hl & Hr)|(cls & Hl & Hr)]];
        rewrite Hr in H1; [discriminate| |]; injection H1 as <-;
        (eexists; split; [apply lookup_insert_eq|simpl; set_solver]). }
    destruct Hmp as (mp & Hl & Hin).
    assert (Hw : w2 = w1).
    { destruct (register_cases e2 c tp mt2 w1)
        as [[ex Hr]|[(mp' & Hl' & Hr)|(cls & Hl' & Hr)]];
        rewrite Hr in H2; [discriminate| |congruence].
      injection H2 as <-. rewrite Hl in Hl'. injection Hl' as <-.
      rewrite (union_present _ _ Hin), set_clients_id, insert_id by done.
      apply world_eta. }
    subst w2. split; [done|]. exists mp. split; [done|]. split; [done|].
    split.
    { rewrite elem_of_difference, elem_of_singleton. tauto. }
    rewrite unregister_unfold, Hl. f_equal.
    destruct (decide (clients mp = {[c]})) as [He|Hne].
    + rewrite (bool_decide_true _ He).
      rewrite bool_decide_true; [done|].
      apply difference_singleton_empty. by right.
    + rewrite (bool_decide_false _ Hne).
      rewrite bool_decide_false; [done|].
      intros [He| He]%difference_singleton_empty; [|done].
      rewrite He in Hin. by apply not_elem_of_empty in Hin.
Qed.

(** C6 (teardown).  When a topic's publisher has exactly one client,
    [unregister] by that client unregisters the publisher, which clears
    its clients, and deletes the topic's entry.  A [register] on the
    topic that returns after that, right away or in any later world in
    which the topic still has no publisher, has constructed another
    publisher: a new object, numbered after every object made before,
    with a new listener, attached, whose buffer is empty and whose
    window starts at the time its [attach] reads, and with the caller as
    its only client. *)
Theorem teardown c tp w mp :
  consistent w ->
  _publishers w !! tp = Some mp ->
  clients mp = {[c]} ->
  let w' := mkWorld (delete tp (_publishers w)) (next_oid w)
                    (ros_log w ++ [(oid mp, RosUnregister)]) in
  unregister c tp w = (Returns (), w')
  /\ (forall mp0,
        clients (snd (fst (MultiPublisher_unregister mp0))) = ∅
        /\ snd (MultiPublisher_unregister mp0) = [RosUnregister])
  /\ _publishers w' !! tp = None
  /\ (forall w2 e c2 mt w'',
        w2 = w' \/
          (_publishers w2 !! tp = None /\ (next_oid w <= next_oid w2)%nat) ->
        register e c2 tp mt w2 = (Returns (), w'') ->
        exists mp2,
          _publishers w'' !! tp = Some mp2
          /\ oid mp2 = next_oid w2
          /\ oid mp2 <> oid mp
          /\ listener mp2 = mkListener (time_attach e) [] true
          /\ publisher mp2 =
               mkPublisher tp (msg_class mp2) listener_publish_override true
          /\ clients mp2 = {[c2]}
          /\ ros_log w'' =
               ros_log w2 ++ [(oid mp2, RosAdvertise tp (msg_class mp2))]
          /\ forall now,
               timed_out now (listener mp2) =
               negb (Qle_bool (now - time_attach e) timeout)).
Proof.
  intros Hcons Hl Hc w'.
  assert (Hgone : _publishers w' !! tp = None) by apply lookup_delete_eq.
  split; [|split; [|split]].
  - rewrite unregister_unfold, Hl.
    rewrite bool_decide_true; [done|].
    apply difference_singleton_empty. by right.
  - intros mp0. by simpl.
  - exact Hgone.
  - intros w2 e c2 mt w'' Hw2 Hr.
    assert (Hw2' : _publishers w2 !! tp = None
                   /\ (next_oid w <= next_oid w2)%nat).
    { destruct Hw2 as [->|?]; [|done]. split; [exact Hgone|simpl; lia]. }
    destruct Hw2' as [Hnone Hle].
    destruct (register_cases e c2 tp mt w2)
      as [[ex Hr']|[(mp' & Hl' & Hr')|(cls & Hl' & Hr')]];
      rewrite Hr' in Hr; [discriminate|congruence|].
    injection Hr as <-. eexists. split; [apply lookup_insert_eq|].
    simpl. destruct (proj1 Hcons tp mp Hl) as (_ & _ & Hlt).
    repeat split; try done. lia.
Qed.

(** ** Sharing *)

Lemma consistent_init : consistent PublisherManager_init.
Proof.
  split.
  - intros tp mp H. simpl in H. by rewrite lookup_empty in H.
  - intros tp1 tp2 mp1 mp2 H. simpl in H. by rewrite lookup_empty in H.
Qed.

(** Putting [mp'] under [tp] keeps a world consistent when [mp'] is the
    object that was there or one numbered from [next_oid] on. *)
Lemma consistent_insert w tp mp' n' log' :
  consistent w ->
  clients mp' <> ∅ -> topic mp' = tp -> (oid mp' < n')%nat ->
  (next_oid w <= n')%nat ->
  (next_oid w <= oid mp')%nat
    \/ (exists mp, _publishers w !! tp = Some mp /\ oid mp' = oid mp) ->
  consistent (mkWorld (<[tp := mp']> (_publishers w)) n' log').
Proof.
  intros [Hent Huniq] Hc Ht Ho Hn Hid.
  assert (Hother : forall tp0 mp0,
            _publishers w !! tp0 = Some mp0 -> oid mp0 = oid mp' -> tp0 = tp).
  { intros tp0 mp0 Hl0 Heq. destruct Hid as [Hfresh|(mp & Hl & Hsame)].
    - destruct (Hent tp0 mp0 Hl0) as (_ & _ & Hlt). lia.
    - eapply Huniq; [exact Hl0|exact Hl|congruence]. }
  split.
  - intros tp0 mp0. simpl.
    destruct (decide (tp = tp0)) as [<-|Hne].
    + rewrite lookup_insert_eq. by intros [= <-].
    + rewrite lookup_insert_ne by done. intros Hl.
      destruct (Hent tp0 mp0 Hl) as (? & ? & ?). repeat split; [done..|lia].
  - intros tp1 tp2 mp1 mp2. simpl.
    destruct (decide (tp = tp1)) as [<-|Hne1];
      destruct (decide (tp = tp2)) as [<-|Hne2]; [done|..].
    + rewrite lookup_insert_eq, lookup_insert_ne by done.
      intros [= <-] Hl2 Heq. symmetry. by eapply Hother.
    + rewrite lookup_insert_eq, lookup_insert_ne by done.
      intros Hl1 [= <-] Heq. by eapply Hother.
    + rewrite !lookup_insert_ne by done. apply Huniq.
Qed.

Lemma consistent_delete w tp log' :
  consistent w ->
  consistent (mkWorld (delete tp (_publishers w)) (next_oid w) log').
Proof.
  intros [Hent Huniq]. split.
  - intros tp0 mp0. simpl.
    destruct (decide (tp = tp0)) as [<-|Hne].
    + by rewrite lookup_delete_eq.
    + rewrite lookup_delete_ne by done. apply Hent.
  - intros tp1 tp2 mp1 mp2. simpl.
    destruct (decide (tp = tp1)) as [<-|Hne1];
      [by rewrite lookup_delete_eq|].
    destruct (decide (tp = tp2)) as [<-|Hne2];
      [by rewrite lookup_delete_eq|].
    rewrite !lookup_delete_ne by done. apply Huniq.
Qed.

Lemma union_singleton_nonempty (X : gset nat) c : {[c]} ∪ X <> ∅.
Proof.
  intros H. assert (Hin : c ∈ {[c]} ∪ X).
  { apply elem_of_union. left. by apply elem_of_singleton. }
  rewrite H in Hin. by apply not_elem_of_empty in Hin.
Qed.

Lemma singleton_nonempty (c : nat) : ({[c]} : gset nat) <> ∅.
Proof.
  intros H. assert (Hin : c ∈ ({[c]} : gset nat)) by by apply elem_of_singleton.
  rewrite H in Hin. by apply not_elem_of_empty in Hin.
Qed.

Lemma consistent_register e c tp mt w :
  consistent w -> consistent (snd (register e c tp mt w)).
Proof.
  intros Hcons.
  destruct (register_cases e c tp mt w)
    as [[ex Hr]|[(mp & Hl & Hr)|(cls & Hl & Hr)]]; rewrite Hr; simpl.
  - done.
  - destruct (proj1 Hcons tp mp Hl) as (? & ? & ?).
    apply consistent_insert; simpl; eauto using union_singleton_nonempty.
  - apply consistent_insert; simpl; auto using singleton_nonempty.
Qed.

Lemma consistent_publish e c tp msg w :
  consistent w -> consistent (snd (publish e c tp msg w)).
Proof.
  intros Hcons.
  destruct (publish_cases e c tp msg w)
    as [(ex & Hr & Hp)|(w1 & mp1 & Hr & Hl & Hc & Hp)]; rewrite Hp; simpl.
  - done.
  - assert (Hcons1 : consistent w1).
    { replace w1 with (snd (register e c tp None w)) by by rewrite Hr.
      by apply consistent_register. }
    destruct (proj1 Hcons1 tp mp1 Hl) as (? & ? & ?).
    destruct (publish_object (time_check e) (time_send e) msg mp1)
      as (Ho & Ht & _ & Hcl).
    apply consistent_insert; eauto; congruence.
Qed.

Lemma consistent_unregister c tp w :
  consistent w -> consistent (snd (unregister c tp w)).
Proof.
  intros Hcons. rewrite unregister_unfold.
  destruct (_publishers w !! tp) as [mp|] eqn:Hl; [|done].
  case_bool_decide as He; simpl.
  - by apply consistent_delete.
  - destruct (proj1 Hcons tp mp Hl) as (? & ? & ?).
    apply consistent_insert; eauto.
Qed.

Lemma unregister_returns c tp w : fst (unregister c tp w) = Returns ().
Proof.
  rewrite unregister_unfold.
  destruct (_publishers w !! tp) as [mp|]; [|done]. by case_bool_decide.
Qed.

Lemma unregister_each_cons c tp tps w :
  unregister_each c (tp :: tps) w = unregister_each c tps (snd (unregister c tp w)).
Proof.
  simpl. unfold mbind, M_bind.
  pose proof (unregister_returns c tp w) as Hr.
  destruct (unregister c tp w) as [[[]|ex] w1]; [done|discriminate].
Qed.

Lemma consistent_unregister_each c tps : forall w,
  consistent w -> consistent (snd (unregister_each c tps w)).
Proof.
  induction tps as [|tp tps IH]; intros w Hcons; [done|].
  rewrite unregister_each_cons. by apply IH, consistent_unregister.
Qed.

Lemma consistent_step call w :
  consistent w -> consistent (snd (step call w)).
Proof.
  destruct call; simpl.
  - apply consistent_register.
  - apply consistent_unregister.
  - apply consistent_unregister_each.
  - apply consistent_publish.
Qed.

Lemma run_snoc cs call w : run (cs ++ [call]) w = snd (step call (run cs w)).
Proof. unfold run. by rewrite fold_left_app. Qed.

Lemma run_cons cs call w : run (call :: cs) w = run cs (snd (step call w)).
Proof. reflexivity. Qed.

Lemma consistent_run cs : forall w, consistent w -> consistent (run cs w).
Proof.
  induction cs as [|call cs IH]; intros w Hcons; [done|].
  rewrite run_cons. by apply IH, consistent_step.
Qed.

Lemma serves_register e c' tp mt w C o cls c :
  serves w C o cls c -> serves (snd (register e c' tp mt w)) C o cls c.
Proof.
  intros (mp & Hl & Ho & Hcl & Hin).
  destruct (register_cases e c' tp mt w)
    as [[ex Hr]|[(mp0 & Hl0 & Hr)|(cls0 & Hl0 & Hr)]]; rewrite Hr; simpl.
  - by exists mp.
  - destruct (decide (tp = C)) as [->|Hne].
    + rewrite Hl in Hl0. injection Hl0 as <-.
      eexists. split; [apply lookup_insert_eq|]. simpl.
      repeat split; [done..|]. apply elem_of_union. by right.
    + exists mp. simpl. by rewrite lookup_insert_ne.
  - assert (Hne : tp <> C) by congruence.
    exists mp. simpl. by rewrite lookup_insert_ne.
Qed.

Lemma serves_publish e c' tp msg w C o cls c :
  serves w C o cls c -> serves (snd (publish e c' tp msg w)) C o cls c.
Proof.
  intros Hs.
  destruct (publish_cases e c' tp msg w)
    as [(ex & Hr & Hp)|(w1 & mp1 & Hr & Hl & Hc & Hp)]; rewrite Hp; simpl.
  - done.
  - assert (Hs1 : serves w1 C o cls c).
    { replace w1 with (snd (register e c' tp None w)) by by rewrite Hr.
      by apply serves_register. }
    destruct Hs1 as (mp & Hl1 & Ho & Hcl & Hin).
    destruct (decide (tp = C)) as [->|Hne].
    + rewrite Hl in Hl1. injection Hl1 as ->.
      destruct (publish_object (time_check e) (time_send e) msg mp)
        as (Ho' & _ & Hc' & Hcl').
      eexists. split; [apply lookup_insert_eq|].
      repeat split; congruence.
    + exists mp. simpl. by rewrite lookup_insert_ne.
Qed.

Lemma serves_unregister c' tp w C o cls c :
  c' <> c \/ tp <> C ->
  serves w C o cls c -> serves (snd (unregister c' tp w)) C o cls c.
Proof.
  intros Hother (mp & Hl & Ho & Hcl & Hin). rewrite unregister_unfold.
  destruct (_publishers w !! tp) as [mp0|] eqn:Hl0; [|by exists mp].
  destruct (decide (tp = C)) as [->|Hne].
  - destruct Hother as [Hc|]; [|done].
    rewrite Hl in Hl0. injection Hl0 as <-.
    assert (Hin' : c ∈ clients mp ∖ {[c']}).
    { apply elem_of_difference. rewrite elem_of_singleton. split; congruence. }
    rewrite bool_decide_false.
    2:{ intros He. rewrite He in Hin'. by apply not_elem_of_empty in Hin'. }
    simpl. eexists. split; [apply lookup_insert_eq|]. by simpl.
  - case_bool_decide; simpl; exists mp; simpl.
    + by rewrite lookup_delete_ne.
    + by rewrite lookup_insert_ne.
Qed.

Lemma serves_unregister_each c' tps C o cls c :
  c' <> c ->
  forall w, serves w C o cls c ->
            serves (snd (unregister_each c' tps w)) C o cls c.
Proof.
  intros Hc. induction tps as [|tp tps IH]; intros w Hs; [done|].
  rewrite unregister_each_cons. apply IH, serves_unregister; auto.
Qed.

Lemma serves_step call w C o cls c :
  leaves c C call = false ->
  serves w C o cls c -> serves (snd (step call w)) C o cls c.
Proof.
  destruct call as [e c' tp mt|c' tp|c'|e c' tp msg]; simpl; intros Hleave.
  - apply serves_register.
  - apply serves_unregister.
    apply andb_false_iff in Hleave as [H|H]; apply bool_decide_eq_false in H;
      auto.
  - apply bool_decide_eq_false in Hleave. by apply serves_unregister_each.
  - apply serves_publish.
Qed.

Lemma serves_run C o cls c cs : forall w,
  forallb (fun call => negb (leaves c C call)) cs = true ->
  serves w C o cls c -> serves (run cs w) C o cls c.
Proof.
  induction cs as [|call cs IH]; intros w Hall Hs; [done|].
  simpl in Hall. apply andb_true_iff in Hall as [H1 H2].
  apply negb_true_iff in H1.
  rewrite run_cons. by apply IH, serves_step.
Qed.

Lemma has_clients_true mp :
  clients mp <> ∅ -> has_clients mp = (Returns true, mp, []).
Proof.
  intros Hne. unfold has_clients. do 3 f_equal.
  apply negb_true_iff, Nat.eqb_neq. intros Hs.
  apply size_empty_inv in Hs. by apply leibniz_equiv in Hs.
Qed.

(** C1 (sharing).  Start from any world a manager can be in and let any
    calls happen, in any order, by any clients, on any topics, returning
    or raising.  The world stays one a manager can be in: a topic has at
    most one publisher, no publisher object sits under two topics, and
    [has_clients] of a publisher the manager holds is true.
    A [register] or [publish] by a client on topic [C] that returns
    leaves [C] with a publisher that has this client, and it is the
    object that was there before the call if there was one, and a newly
    numbered one otherwise.  And as long as some client of [C]'s
    publisher has not unregistered, [C] keeps that very object, with
    that client and the same class. *)
Theorem one_shared_endpoint (C : string) (w : World) (cs : list Call) :
  consistent w ->
  consistent (run cs w)
  /\ (forall mp mp',
        _publishers (run cs w) !! C = Some mp ->
        _publishers (run cs w) !! C = Some mp' ->
        mp = mp' /\ has_clients mp = (Returns true, mp, []))
  /\ (forall c call w',
        joins c C call = true ->
        step call (run cs w) = (Returns (), w') ->
        exists mp',
          _publishers w' !! C = Some mp'
          /\ c ∈ clients mp'
          /\ match _publishers (run cs w) !! C with
             | Some mp => oid mp' = oid mp /\ msg_class mp' = msg_class mp
                          /\ clients mp ⊆ clients mp'
             | None => oid mp' = next_oid (run cs w) /\ clients mp' = {[c]}
             end)
  /\ (forall mp c,
        _publishers w !! C = Some mp ->
        c ∈ clients mp ->
        forallb (fun call => negb (leaves c C call)) cs = true ->
        serves (run cs w) C (oid mp) (msg_class mp) c).
Proof.
  intros Hcons. pose proof (consistent_run cs w Hcons) as Hcons'.
  split; [done|]. split; [|split].
  - intros mp mp' H1 H2. split; [congruence|].
    apply has_clients_true. by destruct (proj1 Hcons' C mp H1).
  - set (w0 := run cs w) in *. clearbody w0.
    assert (Hreg : forall e c mt w',
      register e c C mt w0 = (Returns (), w') ->
      exists mp', _publishers w' !! C = Some mp' /\ c ∈ clients mp'
        /\ match _publishers w0 !! C with
           | Some mp => oid mp' = oid mp /\ msg_class mp' = msg_class mp
                        /\ clients mp ⊆ clients mp'
           | None => oid mp' = next_oid w0 /\ clients mp' = {[c]}
           end).
    { intros e c mt w' Hr.
      destruct (register_cases e c C mt w0)
        as [[ex Hr']|[(mp & Hl & Hr')|(cls & Hl & Hr')]];
        rewrite Hr' in Hr; [discriminate| |]; injection Hr as <-;
        rewrite Hl; (eexists; split; [apply lookup_insert_eq|]); simpl.
      - split; [set_solver|]. repeat split; [done..|set_solver].
      - split; [set_solver|]. done. }
    intros c [e c' tp mt|c' tp|c'|e c' tp msg] w' Hj Hstep;
      simpl in Hj; try discriminate;
      apply andb_true_iff in Hj as [Hc Ht];
      apply bool_decide_eq_true in Hc, Ht; subst c' tp; simpl in Hstep.
    + exact (Hreg _ _ _ _ Hstep).
    + destruct (publish_cases e c C msg w0)
        as [(ex & Hr & Hp)|(w1 & mp1 & Hr & Hl & Hc & Hp)];
        rewrite Hp in Hstep; [discriminate|].
      simpl in Hstep. injection Hstep as _ <-.
      destruct (Hreg e c None w1 Hr) as (mp' & Hl' & Hin & Hold).
      rewrite Hl in Hl'. injection Hl' as <-.
      destruct (publish_object (time_check e) (time_send e) msg mp1)
        as (Ho' & _ & Hc' & Hcl').
      eexists. split; [apply lookup_insert_eq|].
      rewrite Ho', Hc', Hcl'. done.
  - intros mp c Hl Hin Hall. apply serves_run; [done|].
    by exists mp.
Qed.

(** * Further properties of the listener *)

Lemma timed_out_false_iff now l :
  timed_out now l = false <-> now <= established_time l + timeout.
Proof.
  unfold timed_out, timeout. rewrite negb_false_iff, Qle_bool_iff.
  split; intros H; lra.
Qed.

Lemma timed_out_true_iff now l :
  timed_out now l = true <-> established_time l + timeout < now.
Proof.
  destruct (timed_out now l) eqn:Ht.
  - split; [intros _|done].
    destruct (Qlt_le_dec (established_time l + timeout) now) as [Hlt|Hle];
      [done|].
    apply timed_out_false_iff in Hle. congruence.
  - split; [done|]. intros Hlt. apply timed_out_false_iff in Ht. lra.
Qed.

Lemma listener_step_timed_out ev l :
  timed_out (event_time ev) l = true ->
  listener_step ev l = (l, match ev with
                           | Send _ m => [RosPublish m]
                           | Connect _ _ => []
                           end).
Proof.
  destruct ev as [now m|now peer]; simpl; intros Ht.
  - unfold publish_override. by rewrite Ht.
  - unfold peer_subscribe. by rewrite Ht.
Qed.

Lemma listener_after_app evs1 evs2 l :
  listener_after (evs1 ++ evs2) l = listener_after evs2 (listener_after evs1 l).
Proof. unfold listener_after. apply fold_left_app. Qed.

Lemma listener_after_timed_out evs : forall l,
  Forall (fun ev => timed_out (event_time ev) l = true) evs ->
  listener_after evs l = l.
Proof.
  induction evs as [|ev evs IH]; intros l Hall; [done|].
  apply Forall_cons in Hall as [Hev Hall].
  change (listener_after (ev :: evs) l)
    with (listener_after evs (fst (listener_step ev l))).
  rewrite (listener_step_timed_out _ _ Hev). simpl. by apply IH.
Qed.

(** X2 (the buffer freezes).  Suppose the listener is timed out at time
    [t0] and every event of [post] reads a time not before [t0].  Then,
    after any history [pre], the events of [post] leave the listener
    exactly as it was: nothing is buffered any more.  Each send among
    them only forwards its message, and each connection among them is
    replayed nothing. *)
Theorem buffer_frozen_after_timeout (l : PublisherConsistencyListener)
    (t0 : Q) (pre post : list ListenerEvent) :
  timed_out t0 (listener_after pre l) = true ->
  Forall (fun ev => t0 <= event_time ev) post ->
  listener_after (pre ++ post) l = listener_after pre l
  /\ forall post1 ev post2,
       post = post1 ++ ev :: post2 ->
       listener_step ev (listener_after (pre ++ post1) l) =
         (listener_after pre l,
          match ev with
          | Send _ m => [RosPublish m]
          | Connect _ _ => []
          end).
Proof.
  intros Ht0 Hall.
  assert (Hlate : Forall (fun ev => timed_out (event_time ev)
                                     (listener_after pre l) = true) post).
  { eapply Forall_impl; [exact Hall|]. intros ev Hle. simpl in Hle.
    apply timed_out_true_iff. apply timed_out_true_iff in Ht0. lra. }
  split.
  - rewrite listener_after_app. by apply listener_after_timed_out.
  - intros post1 ev post2 ->.
    apply Forall_app in Hlate as [H1 H2].
    apply Forall_cons in H2 as [Hev _].
    rewrite listener_after_app, (listener_after_timed_out _ _ H1).
    by apply listener_step_timed_out.
Qed.

(** * Further properties of the endpoint *)

Lemma coupled_construct now o tp cls :
  coupled (fst (MultiPublisher_construct now o tp cls)).
Proof. by unfold coupled. Qed.

Lemma coupled_set_clients cs mp : coupled mp -> coupled (set_clients cs mp).
Proof. by unfold coupled. Qed.

Lemma coupled_publish nc ns msg mp :
  coupled mp -> coupled (snd (fst (MultiPublisher_publish nc ns msg mp))).
Proof.
  unfold coupled, MultiPublisher_publish. intros (Hp & Hl & Ht & Hc).
  destruct (attached (listener mp)) eqn:Ha; simpl.
  - destruct (timed_out nc (listener mp)); simpl.
    + by destruct (populate_instance msg (msg_class mp)).
    + destruct (populate_instance msg (msg_class mp)); simpl;
        [|by rewrite Ha].
      unfold Publisher_publish, publish_override. rewrite Hp.
      destruct (timed_out ns (listener mp)); simpl; by rewrite ?Ha.
  - destruct (populate_instance msg (msg_class mp)); simpl;
      [|by rewrite Ha].
    unfold Publisher_publish. rewrite Hp. simpl. by rewrite Ha.
Qed.

Lemma coupled_endpoint_step ev mp :
  coupled mp -> coupled (fst (endpoint_step ev mp)).
Proof.
  intros Hc. destruct ev as [nc ns msg|now peer]; simpl.
  - pose proof (coupled_publish nc ns msg mp Hc) as H.
    by destruct (MultiPublisher_publish nc ns msg mp) as [[? ?] ?].
  - pose proof (new_subscription_state now peer (publisher mp) (listener mp))
      as Hs.
    destruct (Publisher_new_subscription now peer (publisher mp) (listener mp))
      as [l effs]. simpl in Hs. subst l. simpl. by rewrite set_transport_id.
Qed.

(** A property of publishers that holds of a constructed one and is kept
    by [set_clients] and by [MultiPublisher.publish] is kept, for all the
    publishers of a manager, by every call. *)
Lemma entries_step (P : MultiPublisher -> Prop) :
  (forall now o tp cls, P (fst (MultiPublisher_construct now o tp cls))) ->
  (forall cs mp, P mp -> P (set_clients cs mp)) ->
  (forall nc ns msg mp,
      P mp -> P (snd (fst (MultiPublisher_publish nc ns msg mp)))) ->
  forall call w,
    (forall tp mp, _publishers w !! tp = Some mp -> P mp) ->
    forall tp mp, _publishers (snd (step call w)) !! tp = Some mp -> P mp.
Proof.
  intros Hnew Hset Hpub.
  assert (Hins : forall (m : gmap string MultiPublisher) tp0 mp0,
    (forall tp mp, m !! tp = Some mp -> P mp) -> P mp0 ->
    forall tp mp, <[tp0 := mp0]> m !! tp = Some mp -> P mp).
  { intros m tp0 mp0 Hw H0 tp mp.
    destruct (decide (tp0 = tp)) as [<-|Hne].
    - rewrite lookup_insert_eq. by intros [= <-].
    - rewrite lookup_insert_ne by done. apply Hw. }
  assert (Hreg : forall e c tp0 mt w,
    (forall tp mp, _publishers w !! tp = Some mp -> P mp) ->
    forall tp mp,
      _publishers (snd (register e c tp0 mt w)) !! tp = Some mp -> P mp).
  { intros e c tp0 mt w Hw.
    destruct (register_cases e c tp0 mt w)
      as [[ex Hr]|[(mp0 & Hl & Hr)|(cls & Hl & Hr)]]; rewrite Hr; cbn [snd _publishers].
    - exact Hw.
    - apply Hins; eauto.
    - apply Hins; eauto. }
  assert (Hunreg : forall c tp0 w,
    (forall tp mp, _publishers w !! tp = Some mp -> P mp) ->
    forall tp mp,
      _publishers (snd (unregister c tp0 w)) !! tp = Some mp -> P mp).
  { intros c tp0 w Hw. rewrite unregister_unfold.
    destruct (_publishers w !! tp0) as [mp0|] eqn:Hl; [|exact Hw].
    case_bool_decide; cbn [snd _publishers].
    - intros tp mp. destruct (decide (tp0 = tp)) as [<-|Hne].
      + by rewrite lookup_delete_eq.
      + rewrite lookup_delete_ne by done. apply Hw.
    - apply Hins; eauto. }
  intros [e c tp0 mt|c tp0|c|e c tp0 msg] w Hw; simpl.
  - by apply Hreg.
  - by apply Hunreg.
  - unfold unregister_all.
    generalize (map fst (map_to_list (_publishers w))). intros tps.
    revert w Hw. induction tps as [|tp0 tps IH]; intros w Hw; [exact Hw|].
    rewrite unregister_each_cons. by apply IH, Hunreg.
  - destruct (publish_cases e c tp0 msg w)
      as [(ex & Hr & Hp)|(w1 & mp1 & Hr & Hl & Hc & Hp)]; rewrite Hp; cbn [snd _publishers].
    + exact Hw.
    + assert (Hw1 : forall tp mp, _publishers w1 !! tp = Some mp -> P mp).
      { replace w1 with (snd (register e c tp0 None w)) by by rewrite Hr.
        by apply Hreg. }
      apply Hins; eauto.
Qed.

Lemma entries_run (P : MultiPublisher -> Prop) :
  (forall now o tp cls, P (fst (MultiPublisher_construct now o tp cls))) ->
  (forall cs mp, P mp -> P (set_clients cs mp)) ->
  (forall nc ns msg mp,
      P mp -> P (snd (fst (MultiPublisher_publish nc ns msg mp)))) ->
  forall cs w,
    (forall tp mp, _publishers w !! tp = Some mp -> P mp) ->
    forall tp mp, _publishers (run cs w) !! tp = Some mp -> P mp.
Proof.
  intros Hnew Hset Hpub cs.
  induction cs as [|call cs IH]; intros w Hw; [exact Hw|].
  rewrite run_cons. apply IH. by apply entries_step.
Qed.

(** X3 (publisher and listener agree).  In every world a manager gets
    to from its creation, by whatever calls, each publisher it holds is
    coupled with its listener: [publisher.publish] is the listener's
    override and the listener is among the subscriber listeners exactly
    while the listener is marked attached.  Publishes and new
    subscriptions on such a publisher keep it so. *)
Theorem publisher_listener_coupled (cs : list Call) :
  (forall tp mp,
      _publishers (run cs PublisherManager_init) !! tp = Some mp ->
      coupled mp)
  /\ (forall evs mp, coupled mp -> coupled (endpoint_after evs mp)).
Proof.
  split.
  - apply (entries_run coupled).
    + apply coupled_construct.
    + apply coupled_set_clients.
    + apply coupled_publish.
    + intros tp mp H. simpl in H. by rewrite lookup_empty in H.
  - intros evs. induction evs as [|ev evs IH]; intros mp Hc; [done|].
    change (endpoint_after (ev :: evs) mp)
      with (endpoint_after evs (fst (endpoint_step ev mp))).
    by apply IH, coupled_endpoint_step.
Qed.

Lemma detached_step ev mp :
  coupled mp -> attached (listener mp) = false ->
  endpoint_step ev mp =
    (mp, match ev with
         | EPublish _ _ msg =>
             match populate_instance msg (msg_class mp) with
             | Some inst => [RosPublish inst]
             | None => []
             end
         | ESubscribe _ _ => []
         end).
Proof.
  intros (Hp & Hl & _) Ha. rewrite Ha in Hp, Hl.
  destruct ev as [nc ns msg|now peer]; simpl.
  - unfold MultiPublisher_publish. rewrite Ha. simpl.
    destruct (populate_instance msg (msg_class mp)) as [inst|].
    + unfold Publisher_publish. rewrite Hp. by rewrite set_transport_id.
    + by rewrite set_transport_id.
  - unfold Publisher_new_subscription. rewrite Hl.
    by rewrite set_transport_id.
Qed.

(** X4 (detached for good).  On a publisher whose listener is
    detached, no publish and no new subscription changes anything: the
    listener is never attached again and its buffer never read or
    written.  Every further publish sends the converted message straight
    to the transport, without reading the clock, and every further
    subscription is replayed nothing. *)
Theorem detached_is_final (mp : MultiPublisher) (evs : list EndpointEvent) :
  coupled mp ->
  attached (listener mp) = false ->
  endpoint_after evs mp = mp
  /\ forall ev,
       endpoint_step ev (endpoint_after evs mp) =
         (mp, match ev with
              | EPublish _ _ msg =>
                  match populate_instance msg (msg_class mp) with
                  | Some inst => [RosPublish inst]
                  | None => []
                  end
              | ESubscribe _ _ => []
              end).
Proof.
  intros Hc Ha.
  assert (Hsame : endpoint_after evs mp = mp).
  { induction evs as [|ev evs IH]; [done|].
    change (endpoint_after (ev :: evs) mp)
      with (endpoint_after evs (fst (endpoint_step ev mp))).
    by rewrite (detached_step ev mp Hc Ha). }
  split; [exact Hsame|].
  intros ev. rewrite Hsame. by apply detached_step.
Qed.

Lemma in_window_step ev mp :
  coupled mp -> attached (listener mp) = true ->
  in_window (listener mp) ev = true ->
  let mp' := fst (endpoint_step ev mp) in
  coupled mp' /\ attached (listener mp') = true
  /\ established_time (listener mp') = established_time (listener mp)
  /\ msg_class mp' = msg_class mp
  /\ msg_buffer (listener mp') =
       msg_buffer (listener mp) ++ converted (msg_class mp) [ev].
Proof.
  intros Hc Ha Hw.
  pose proof (coupled_endpoint_step ev mp Hc) as Hc'.
  destruct Hc as (Hp & _). rewrite Ha in Hp.
  destruct ev as [nc ns msg|now peer]; simpl in *.
  - apply andb_true_iff in Hw as [Hnc Hns].
    apply negb_true_iff in Hnc, Hns.
    unfold MultiPublisher_publish in *. rewrite Ha, Hnc in *. simpl in *.
    destruct (populate_instance msg (msg_class mp)) as [inst|]; simpl in *.
    + unfold Publisher_publish, publish_override in *.
      rewrite Hp, Hns in *. simpl in *. done.
    + rewrite app_nil_r. done.
  - pose proof (new_subscription_state now peer (publisher mp) (listener mp))
      as Hs.
    destruct (Publisher_new_subscription now peer (publisher mp) (listener mp))
      as [l effs]. simpl in *. subst l. rewrite app_nil_r. done.
Qed.

Lemma in_window_established l l' ev :
  established_time l' = established_time l ->
  in_window l' ev = in_window l ev.
Proof.
  intros He. destruct ev; simpl;
    by rewrite !(timed_out_established _ _ _ He).
Qed.

Lemma converted_cons cls ev evs :
  converted cls (ev :: evs) = converted cls [ev] ++ converted cls evs.
Proof.
  destruct ev as [nc ns msg|now peer]; simpl; [|done].
  by destruct (populate_instance msg cls).
Qed.

Lemma forallb_pointwise {A} (f g : A -> bool) (xs : list A) :
  (forall x, f x = g x) -> forallb f xs = forallb g xs.
Proof.
  intros Hfg. induction xs as [|x xs IH]; [done|].
  simpl. by rewrite Hfg, IH.
Qed.

Lemma in_window_after evs : forall mp,
  coupled mp -> attached (listener mp) = true ->
  forallb (in_window (listener mp)) evs = true ->
  let mp' := endpoint_after evs mp in
  coupled mp' /\ attached (listener mp') = true
  /\ established_time (listener mp') = established_time (listener mp)
  /\ msg_buffer (listener mp') =
       msg_buffer (listener mp) ++ converted (msg_class mp) evs.
Proof.
  induction evs as [|ev evs IH]; intros mp Hc Ha Hall.
  - simpl. by rewrite app_nil_r.
  - simpl in Hall. apply andb_true_iff in Hall as [Hev Hall].
    destruct (in_window_step ev mp Hc Ha Hev) as (Hc1 & Ha1 & He1 & Hm1 & Hb1).
    change (endpoint_after (ev :: evs) mp)
      with (endpoint_after evs (fst (endpoint_step ev mp))).
    assert (Hall1 : forallb (in_window (listener (fst (endpoint_step ev mp))))
                      evs = true).
    { rewrite <- Hall. apply forallb_pointwise. intros ev'.
      by apply in_window_established. }
    destruct (IH _ Hc1 Ha1 Hall1) as (Hc2 & Ha2 & He2 & Hb2).
    split; [done|]. split; [done|]. split; [congruence|].
    rewrite Hb2, Hb1, Hm1, (converted_cons _ ev evs).
    by rewrite app_assoc.
Qed.

(** X5 (early messages reach a late subscriber).  On a publisher whose
    listener is attached, let publishes and subscriptions happen inside
    the window.  A subscription that then arrives, still inside the
    window, is replayed the buffered messages followed by the instance of
    every published message that converted, in the order published, and
    it leaves the publisher as it was.  Messages that did not convert are
    not replayed. *)
Theorem published_then_replayed (mp : MultiPublisher)
    (evs : list EndpointEvent) (now : Q) (peer : nat) :
  coupled mp ->
  attached (listener mp) = true ->
  forallb (in_window (listener mp)) evs = true ->
  timed_out now (listener mp) = false ->
  endpoint_step (ESubscribe now peer) (endpoint_after evs mp) =
    (endpoint_after evs mp,
     map (PeerPublish peer)
         (msg_buffer (listener mp) ++ converted (msg_class mp) evs)).
Proof.
  intros Hc Ha Hall Hnow.
  destruct (in_window_after evs mp Hc Ha Hall) as (Hc' & Ha' & He' & Hb').
  destruct Hc' as (_ & Hl & _). rewrite Ha' in Hl.
  simpl. unfold Publisher_new_subscription, peer_subscribe.
  rewrite Hl, (timed_out_established _ _ _ He'), Hnow. simpl.
  by rewrite set_transport_id, Hb'.
Qed.

(** * Further properties of the manager *)

Lemma publish_result nc ns msg mp :
  fst (fst (MultiPublisher_publish nc ns msg mp)) =
    match populate_instance msg (msg_class mp) with
    | Some _ => Returns ()
    | None => Raises ConversionException
    end
  /\ snd (MultiPublisher_publish nc ns msg mp) =
       match populate_instance msg (msg_class mp) with
       | Some inst => [RosPublish inst]
       | None => []
       end.
Proof.
  unfold MultiPublisher_publish.
  destruct (attached (listener mp) && timed_out nc (listener mp)); simpl;
    destruct (populate_instance msg (msg_class mp)); simpl; auto;
    unfold Publisher_publish, publish_override; simpl;
    destruct (pub_publish (publisher mp)); simpl; auto.
Qed.

Lemma register_log e c tp mt w w1 :
  register e c tp mt w = (Returns (), w1) ->
  exists mp1,
    _publishers w1 !! tp = Some mp1
    /\ ros_log w1 =
         ros_log w ++
         match _publishers w !! tp with
         | Some _ => []
         | None => [(oid mp1, RosAdvertise tp (msg_class mp1))]
         end.
Proof.
  intros Hr.
  destruct (register_cases e c tp mt w)
    as [[ex Hr']|[(mp & Hl & Hr')|(cls & Hl & Hr')]];
    rewrite Hr' in Hr; [discriminate| |]; injection Hr as <-;
    rewrite Hl; (eexists; split; [apply lookup_insert_eq|]); simpl.
  - by rewrite app_nil_r.
  - done.
Qed.

(** X6 (forwarded exactly once).  A [publish] that returns has handed
    the converted message to the transport once, through the topic's
    publisher, whatever the state of the listener: the log grows by the
    advertisement of the publisher, if the call created it, and then by
    that one publication.  A [publish] that raises has handed the
    transport no message. *)
Theorem publish_forwards_once e c tp msg w w' :
  (publish e c tp msg w = (Returns (), w') ->
   exists mp inst,
     _publishers w' !! tp = Some mp
     /\ populate_instance msg (msg_class mp) = Some inst
     /\ ros_log w' =
          ros_log w ++
          match _publishers w !! tp with
          | Some _ => []
          | None => [(oid mp, RosAdvertise tp (msg_class mp))]
          end ++ [(oid mp, RosPublish inst)])
  /\ (forall ex,
        publish e c tp msg w = (Raises ex, w') ->
        forall o inst,
          (o, RosPublish inst) ∈ ros_log w' -> (o, RosPublish inst) ∈ ros_log w).
Proof.
  destruct (publish_cases e c tp msg w)
    as [(ex & Hr & Hp)|(w1 & mp1 & Hr & Hl & Hc & Hp)]; rewrite Hp.
  - split; [discriminate|]. by intros ex' [= <- <-].
  - destruct (register_log _ _ _ _ _ _ Hr) as (mp1' & Hl' & Hlog).
    rewrite Hl in Hl'. injection Hl' as <-.
    destruct (publish_result (time_check e) (time_send e) msg mp1)
      as [Hres Heff].
    destruct (publish_object (time_check e) (time_send e) msg mp1)
      as (Ho & _ & Hcl & _).
    simpl. rewrite Hres, Heff.
    destruct (populate_instance msg (msg_class mp1)) as [inst|] eqn:Hpop.
    + split; [|discriminate]. intros [= <-].
      eexists _, inst. split; [apply lookup_insert_eq|].
      rewrite Ho, Hcl. split; [done|]. simpl.
      by rewrite Hlog, <- app_assoc.
    + split; [discriminate|]. intros ex [= <- <-] o inst. simpl.
      rewrite app_nil_r, Hlog. intros Hin.
      apply elem_of_app in Hin as [Hin|Hin]; [done|].
      destruct (_publishers w !! tp); [by apply elem_of_nil in Hin|].
      apply list_elem_of_singleton in Hin. discriminate.
Qed.

(** X7 (what a publish can raise).  On a topic that has a publisher, a
    [publish] returns when the message converts to the publisher's class
    and raises the conversion's exception otherwise, whoever calls and
    whatever the master says: the topic's type is not looked at again.
    On a topic without a publisher and without an established type, it
    raises [TopicNotEstablishedException] and changes nothing. *)
Theorem publish_outcomes e c tp msg w :
  match _publishers w !! tp with
  | Some mp =>
      fst (publish e c tp msg w) =
        match populate_instance msg (msg_class mp) with
        | Some _ => Returns ()
        | None => Raises ConversionException
        end
  | None =>
      get_topic_type e tp = None ->
      publish e c tp msg w = (Raises (TopicNotEstablishedException tp), w)
  end.
Proof.
  destruct (_publishers w !! tp) as [mp|] eqn:Hl.
  - rewrite publish_unfold, register_unfold, Hl. cbv beta iota zeta.
    erewrite call_found by apply lookup_insert_eq. cbn [fst].
    destruct (publish_result (time_check e) (time_send e) msg
                (set_clients ({[c]} ∪ clients mp) mp)) as [Hres _].
    exact Hres.
  - intros Hnone. rewrite publish_unfold, register_unfold, Hl, Hnone.
    reflexivity.
Qed.

(** X8 (topics do not interfere).  A [register], [unregister] or
    [publish] on one topic leaves the entry of every other topic as it
    was. *)
Theorem other_topics_untouched (call : Call) (tp tp' : string) (w : World) :
  call_topic call = Some tp ->
  tp <> tp' ->
  _publishers (snd (step call w)) !! tp' = _publishers w !! tp'.
Proof.
  intros Hcall Hne.
  assert (Hreg : forall e c mt,
            _publishers (snd (register e c tp mt w)) !! tp'
            = _publishers w !! tp').
  { intros e c mt.
    destruct (register_cases e c tp mt w)
      as [[ex Hr]|[(mp & Hl & Hr)|(cls & Hl & Hr)]]; rewrite Hr; simpl;
      [done|by rewrite lookup_insert_ne..]. }
  destruct call as [e c tp0 mt|c tp0|c|e c tp0 msg]; simpl in Hcall;
    try discriminate; injection Hcall as ->; simpl.
  - apply Hreg.
  - rewrite unregister_unfold.
    destruct (_publishers w !! tp) as [mp|]; [|done].
    case_bool_decide; simpl.
    + by rewrite lookup_delete_ne.
    + by rewrite lookup_insert_ne.
  - destruct (publish_cases e c tp msg w)
      as [(ex & Hr & Hp)|(w1 & mp1 & Hr & Hl & Hc & Hp)]; rewrite Hp; simpl.
    + done.
    + rewrite lookup_insert_ne by done.
      replace w1 with (snd (register e c tp None w)) by by rewrite Hr.
      apply Hreg.
Qed.

(** X9 (register, then unregister).  When a [register] has returned, an
    [unregister] by the same client on the same topic gives the
    publishers back as they were before the two calls, provided the
    client was not a client of the topic before: a publisher that the
    [register] created is unregistered, that very object, and gone
    again, and one that was there has its clients back.  In the second
    case the whole world is as before. *)
Theorem register_unregister_roundtrip e c tp mt w w1 :
  register e c tp mt w = (Returns (), w1) ->
  match _publishers w !! tp with
  | None =>
      _publishers (snd (unregister c tp w1)) = _publishers w
      /\ (exists mp1, _publishers w1 !! tp = Some mp1
                      /\ oid mp1 = next_oid w)
      /\ ros_log (snd (unregister c tp w1)) =
           ros_log w1 ++ [(next_oid w, RosUnregister)]
  | Some mp =>
      c ∉ clients mp -> clients mp <> ∅ -> unregister c tp w1 = (Returns (), w)
  end.
Proof.
  intros Hr.
  destruct (register_cases e c tp mt w)
    as [[ex Hr']|[(mp & Hl & Hr')|(cls & Hl & Hr')]];
    rewrite Hr' in Hr; [discriminate| |]; injection Hr as <-; rewrite Hl.
  - intros Hin Hne. rewrite unregister_unfold. simpl.
    rewrite lookup_insert_eq. simpl.
    assert (Hback : ({[c]} ∪ clients mp) ∖ {[c]} = clients mp).
    { apply set_eq. intros x.
      rewrite elem_of_difference, elem_of_union, elem_of_singleton.
      split; [tauto|]. intros Hx. split; [auto|]. by intros ->. }
    rewrite Hback, bool_decide_false by done.
    unfold set_clients. simpl.
    rewrite insert_insert_eq.
    change (mkMultiPublisher (oid mp) (clients mp) (topic mp) (msg_class mp)
              (publisher mp) (listener mp))
      with (set_clients (clients mp) mp).
    rewrite set_clients_id, insert_id by done. by rewrite world_eta.
  - rewrite unregister_unfold. simpl. rewrite lookup_insert_eq. simpl.
    assert (Hback : ({[c]} : gset nat) ∖ {[c]} = ∅).
    { apply difference_singleton_empty. by right. }
    rewrite Hback, bool_decide_true by done. simpl.
    rewrite delete_insert_eq, delete_id by done.
    split; [done|]. split; [|done].
    eexists. split; reflexivity.
Qed.

Lemma unregister_lookup c tp w tp' :
  _publishers (snd (unregister c tp w)) !! tp' =
    if decide (tp = tp') then without_client c (_publishers w !! tp')
    else _publishers w !! tp'.
Proof.
  rewrite unregister_unfold. destruct (decide (tp = tp')) as [<-|Hne].
  - unfold without_client.
    destruct (_publishers w !! tp) as [mp|] eqn:Hl; [|by simpl].
    case_bool_decide; simpl.
    + apply lookup_delete_eq.
    + apply lookup_insert_eq.
  - destruct (_publishers w !! tp) as [mp|]; [|done].
    case_bool_decide; simpl.
    + by rewrite lookup_delete_ne.
    + by rewrite lookup_insert_ne.
Qed.

Lemma unregister_each_returns c tps : forall w,
  fst (unregister_each c tps w) = Returns ().
Proof.
  induction tps as [|tp tps IH]; intros w; [done|].
  rewrite unregister_each_cons. apply IH.
Qed.

Lemma unregister_each_lookup c tps :
  NoDup tps ->
  forall w tp',
    _publishers (snd (unregister_each c tps w)) !! tp' =
      if decide (tp' ∈ tps) then without_client c (_publishers w !! tp')
      else _publishers w !! tp'.
Proof.
  induction 1 as [|tp tps Hnotin Hnodup IH]; intros w tp'.
  - simpl. destruct (decide (tp' ∈ [])) as [Hin|_]; [|done].
    by apply elem_of_nil in Hin.
  - rewrite unregister_each_cons, IH, unregister_lookup.
    destruct (decide (tp = tp')) as [<-|Hne].
    + rewrite decide_False by done.
      rewrite decide_True by (by left). done.
    + destruct (decide (tp' ∈ tps)) as [Hin|Hnin].
      * rewrite decide_True by (by right). done.
      * rewrite decide_False; [done|].
        intros [?|?]%elem_of_cons; congruence.
Qed.

Lemma without_client_clients c entry mp :
  without_client c entry = Some mp -> (c ∉ clients mp) /\ clients mp <> ∅.
Proof.
  unfold without_client. destruct entry as [mp0|]; [|discriminate].
  case_bool_decide as He; [discriminate|]. intros [= <-]. simpl.
  split; [|done]. rewrite elem_of_difference, elem_of_singleton. tauto.
Qed.

Lemma unregister_all_lookup c w tp :
  _publishers (snd (unregister_all c w)) !! tp =
    without_client c (_publishers w !! tp).
Proof.
  unfold unregister_all.
  rewrite unregister_each_lookup by apply NoDup_fst_map_to_list.
  destruct (decide (tp ∈ map fst (map_to_list (_publishers w))))
    as [Hin|Hnin]; [done|].
  destruct (_publishers w !! tp) as [mp|] eqn:Hl; [|done].
  exfalso. apply Hnin.
  apply (list_elem_of_fmap_2 fst _ (tp, mp)).
  by apply elem_of_map_to_list.
Qed.

(** X10 (unregistering from everything).  [unregister_all] never
    raises.  It does to the entry of every topic what [unregister] by
    this client would do to it alone: the client is taken out of the
    publisher's clients, and the entry goes when no client is left.  So
    afterwards the client is a client of no publisher, and every
    publisher that is left has a client. *)
Theorem unregister_all_leaves (c : nat) (w : World) :
  fst (unregister_all c w) = Returns ()
  /\ (forall tp,
        _publishers (snd (unregister_all c w)) !! tp =
          without_client c (_publishers w !! tp))
  /\ (forall tp mp,
        _publishers (snd (unregister_all c w)) !! tp = Some mp ->
        (c ∉ clients mp) /\ clients mp <> ∅).
Proof.
  split; [apply unregister_each_returns|]. split.
  - apply unregister_all_lookup.
  - intros tp mp. rewrite unregister_all_lookup.
    apply without_client_clients.
Qed.




(** ** The log *)












(** X13 (the first publish on a new topic).  Let a [register] create
    the publisher of a topic, and let a [publish] of a message that
    converts follow.  The [publish] returns, and what it leaves of the
    new listener goes by what [timed_out] answers at its two clock
    readings.  Timed out at the first reading: the listener is detached,
    the publisher has its own publish method back, and the buffer is
    empty.  Not timed out at the first but at the second: the message is
    not buffered and the listener stays attached.  Timed out at neither:
    the message is the one message in the buffer. *)
Theorem first_publish e c tp mt w w1 e' c' msg :
  _publishers w !! tp = None ->
  register e c tp mt w = (Returns (), w1) ->
  exists mp1,
    _publishers w1 !! tp = Some mp1
    /\ listener mp1 = mkListener (time_attach e) [] true
    /\ forall inst,
         populate_instance msg (msg_class mp1) = Some inst ->
         exists mp2,
           _publishers (snd (publish e' c' tp msg w1)) !! tp = Some mp2
           /\ fst (publish e' c' tp msg w1) = Returns ()
           /\ listener mp2 =
                (if timed_out (time_check e') (listener mp1)
                 then mkListener (time_attach e) [] false
                 else if timed_out (time_send e') (listener mp1)
                      then mkListener (time_attach e) [] true
                      else mkListener (time_attach e) [inst] true)
           /\ pub_publish (publisher mp2) =
                (if timed_out (time_check e') (listener mp1)
                 then rospy_publish else listener_publish_override)
           /\ pub_listening (publisher mp2) =
                negb (timed_out (time_check e') (listener mp1)).
Proof.
  intros Hnone Hr.
  destruct (register_cases e c tp mt w)
    as [[ex Hr']|[(mp & Hl & Hr')|(cls & Hl & Hr')]];
    rewrite Hr' in Hr; [discriminate|congruence|]. injection Hr as <-.
  eexists. split; [apply lookup_insert_eq|]. split; [reflexivity|].
  intros inst Hpop. cbn [msg_class set_clients] in Hpop.
  rewrite publish_unfold, register_unfold. cbn [_publishers].
  rewrite lookup_insert_eq. cbv beta iota zeta.
  erewrite call_found by apply lookup_insert_eq.
  cbn [fst snd _publishers]. rewrite lookup_insert_eq.
  eexists. split; [reflexivity|].
  set (l1 := mkListener (time_attach e) [] true).
  unfold MultiPublisher_publish. cbn [msg_class set_clients listener publisher
    MultiPublisher_construct attach fst snd attached new_Publisher
    pub_topic pub_class].
  fold l1. rewrite Hpop.
  destruct (timed_out (time_check e') l1); cbn; [done|].
  unfold publish_override. fold l1.
  destruct (timed_out (time_send e') l1); cbn; done.
Qed.

End Theory.

(** * The properties on the small instance *)

Import Demo.
Local Open Scope string_scope.

(** The history [calls], from the manager as created. *)
Lemma one_shared_endpoint_witness :
  consistent PublisherManager_init
  /\ consistent (run calls PublisherManager_init)
  /\ exists mp,
       _publishers (run calls PublisherManager_init) !! "/cmd" = Some mp
       /\ oid mp = 0%nat
       /\ has_clients mp = (Returns true, mp, []).
Proof.
  split; [apply consistent_init|].
  destruct (one_shared_endpoint "/cmd" PublisherManager_init calls
              consistent_init) as (H1 & H2 & _).
  split; [exact H1|].
  eexists. split; [vm_compute; reflexivity|]. split; [reflexivity|].
  eapply H2; vm_compute; reflexivity.
Defined.

(** The history [sends] of the listener [l0]: a peer connecting at time 1
    is replayed the early message and never the late one. *)
Lemma buffering_window_witness :
  peer_subscribe 1 9 (listener_after sends l0) =
    (listener_after sends l0, [PeerPublish 9 "a"])
  /\ forall now peer peer',
       PeerPublish peer' "late" ∉
         snd (peer_subscribe now peer (listener_after sends l0)).
Proof.
  destruct (buffering_window l0 sends) as (_ & _ & H3 & H4).
  split; [exact (H3 1 9%nat)|].
  apply H4.
  - apply not_elem_of_nil.
  - intros now H.
    apply elem_of_cons in H as [H|H]; [discriminate|].
    apply elem_of_cons in H as [H|H]; [discriminate|].
    apply elem_of_cons in H as [H|H]; [|by apply elem_of_nil in H].
    injection H as ->. reflexivity.
Defined.

(** C3, as the spec has it, fails: on a manager without publishers, a
    [publish] of a message that does not convert, on an established
    topic, raises and leaves the topic with a publisher that has the
    caller as client. *)
Lemma failed_publish_changes_registry :
  exists w',
    publish (R:=demo) (env 0) 2 "/chatter" JNoise PublisherManager_init =
      (Raises ConversionException, w')
    /\ _publishers PublisherManager_init !! "/chatter" = None
    /\ exists mp, _publishers w' !! "/chatter" = Some mp
                  /\ clients mp = {[2%nat]}.
Proof.
  eexists. split; [vm_compute; reflexivity|]. split; [reflexivity|].
  eexists. split; [vm_compute; reflexivity|]. vm_compute. reflexivity.
Qed.

(** The same call, through the theorem. *)
Lemma failed_call_state_witness :
  exists w1 mp1 w',
    publish (R:=demo) (env 0) 2 "/chatter" JNoise PublisherManager_init =
      (Raises ConversionException, w')
    /\ register (R:=demo) (env 0) 2 "/chatter" None PublisherManager_init =
         (Returns (), w1)
    /\ _publishers w1 !! "/chatter" = Some mp1
    /\ _publishers w' !! "/chatter" =
         Some (set_transport (publisher mp1) (listener mp1) mp1).
Proof.
  destruct (failed_call_state (env 0) 2%nat "/chatter" PublisherManager_init
              ConversionException
              (snd (publish (R:=demo) (env 0) 2 "/chatter" JNoise PublisherManager_init)))
    as [_ H].
  destruct (H JNoise eq_refl)
    as [(Hne & _)|(_ & w1 & mp1 & p & l & Hr & Hl & _ & _ & Hw)];
    [by destruct Hne|].
  exists w1, mp1, (snd (publish (R:=demo) (env 0) 2 "/chatter" JNoise PublisherManager_init)).
  split; [reflexivity|]. split; [exact Hr|]. split; [exact Hl|].
  injection Hr as <-. injection Hl as <-. reflexivity.
Defined.

(** A second client with the same type, and one with another type. *)
Lemma second_register_witness :
  register (R:=demo) (env 0) 1 "/cmd" (Some "std_msgs/String") PublisherManager_init =
    (Returns (), w_cmd)
  /\ fst (register (R:=demo) (env 1) 2 "/cmd" (Some "std_msgs/String") w_cmd) = Returns ()
  /\ register (R:=demo) (env 1) 2 "/cmd" (Some "std_msgs/Int32") w_cmd =
       (Raises (TypeConflictException "/cmd" "std_msgs/String" "std_msgs/Int32"),
        w_cmd).
Proof.
  split; [reflexivity|].
  destruct (second_register (R:=demo) (env 0) (env 1) 1%nat 2%nat "/cmd" "std_msgs/String"
              PublisherManager_init w_cmd eq_refl)
    as (mp & Hl & Hc & _ & Hsame & Hall).
  split; [by rewrite Hsame|].
  specialize (Hall "std_msgs/Int32").
  injection Hl as <-. exact Hall.
Defined.

(** On [/chatter], established as [std_msgs/String], creation with
    [std_msgs/Int32] raises [AttributeError]. *)
Lemma creation_conflict_slip_witness :
  get_message_class (Ros:=demo) "std_msgs/Int32" = Some Int32Msg
  /\ class_type Int32Msg <> "std_msgs/String"
  /\ class_attr_type Int32Msg = None
  /\ MultiPublisher_init (R:=demo) (Some "std_msgs/String") 0 0 "/chatter"
       (Some "std_msgs/Int32") = Raises (AttributeError "type")
  /\ fst (register (R:=demo) (env 0) 1 "/chatter" (Some "std_msgs/Int32")
            PublisherManager_init) = Raises (AttributeError "type").
Proof.
  assert (Hne : class_type Int32Msg <> "std_msgs/String") by discriminate.
  split; [reflexivity|]. split; [exact Hne|]. split; [reflexivity|].
  destruct (creation_conflict_slip (R:=demo) (Some "std_msgs/String") 0 0%nat
              "/chatter" "std_msgs/String" "std_msgs/Int32" Int32Msg
              eq_refl eq_refl Hne eq_refl) as [H _].
  split; [exact H|]. reflexivity.
Defined.

(** The spelling with a leading slash is accepted on [/cmd], and
    another type is not. *)
Lemma compatibility_by_class_witness :
  get_message_class (Ros:=demo) "/std_msgs/String" = Some StringMsg
  /\ "/std_msgs/String" <> "std_msgs/String"
  /\ fst (register (R:=demo) (env 0) 2 "/cmd" (Some "/std_msgs/String") w_cmd)
     = Returns ()
  /\ fst (register (R:=demo) (env 0) 2 "/cmd" (Some "std_msgs/Int32") w_cmd)
     <> Returns ()
  /\ verify_type "std_msgs/Int32" mp_cmd =
       (Raises (TypeConflictException "/cmd" "std_msgs/String" "std_msgs/Int32"),
        mp_cmd, []).
Proof.
  split; [reflexivity|]. split; [discriminate|].
  destruct (compatibility_by_class (R:=demo) "/std_msgs/String")
    as (_ & _ & _ & _ & Hyes).
  destruct (compatibility_by_class (R:=demo) "std_msgs/Int32")
    as (_ & Hconflict & _ & _ & Hno).
  split; [apply Hyes; reflexivity|].
  split; [intros H; apply Hno in H; discriminate|].
  apply (Hconflict mp_cmd Int32Msg); [reflexivity|discriminate].
Defined.

(** The only client of [/cmd] leaves; the topic is then registered anew,
    at time 5. *)
Lemma teardown_witness :
  consistent w_cmd
  /\ _publishers w_cmd !! "/cmd" = Some mp_cmd
  /\ clients mp_cmd = {[1%nat]}
  /\ unregister 1 "/cmd" w_cmd =
       (Returns (),
        mkWorld (delete "/cmd" (_publishers w_cmd)) 1
                (ros_log w_cmd ++ [(0%nat, RosUnregister)]))
  /\ exists mp2,
       _publishers
         (snd (register (R:=demo) (env 5) 2 "/cmd" (Some "std_msgs/Int32")
                 (snd (unregister 1 "/cmd" w_cmd)))) !! "/cmd" = Some mp2
       /\ oid mp2 = 1%nat
       /\ listener mp2 = mkListener 5 [] true.
Proof.
  assert (Hcons : consistent w_cmd)
    by apply consistent_register, consistent_init.
  split; [exact Hcons|]. split; [reflexivity|]. split; [reflexivity|].
  destruct (teardown 1%nat "/cmd" w_cmd mp_cmd Hcons eq_refl eq_refl)
    as (Hu & _ & _ & Hnew).
  split; [exact Hu|].
  rewrite Hu. simpl snd.
  destruct (Hnew _ (env 5) 2%nat (Some "std_msgs/Int32") _ (or_introl eq_refl)
              eq_refl)
    as (mp2 & Hl & Ho & _ & Hli & _).
  exists mp2. split; [exact Hl|]. split; [exact Ho|exact Hli].
Defined.

(** At time 3 the listener of [mp_cmd], attached at 0, is timed out. *)
Lemma detach_only_on_publish_witness :
  attached (listener mp_cmd) = true
  /\ timed_out 3 (listener mp_cmd) = true
  /\ MultiPublisher_publish (R:=demo) 3 3 (JData "x") mp_cmd =
       (Returns (),
        set_transport (mkPublisher "/cmd" StringMsg rospy_publish false)
                      (mkListener 0 [] false) mp_cmd,
        [RosPublish "x"])
  /\ endpoint_step (ESubscribe 3 4) mp_cmd = (mp_cmd, []).
Proof.
  split; [reflexivity|]. split; [reflexivity|].
  destruct (detach_only_on_publish mp_cmd) as (Hp & Hs & _).
  split; [exact (Hp 3 3 (JData "x" : Json) eq_refl eq_refl)|].
  destruct (Hs 3 4%nat) as (H1 & _ & H2).
  specialize (H2 eq_refl).
  destruct (endpoint_step (ESubscribe 3 4) mp_cmd) as [mp' effs].
  simpl in H1, H2. by subst.
Defined.

(** An unknown topic, and a client that never registered. *)
Lemma unregister_noop_witness :
  _publishers w_cmd !! "/nowhere" = None
  /\ unregister 1 "/nowhere" w_cmd = (Returns (), w_cmd)
  /\ _publishers w_cmd !! "/cmd" = Some mp_cmd
  /\ (2%nat ∉ clients mp_cmd)
  /\ clients mp_cmd <> ∅
  /\ unregister 2 "/cmd" w_cmd = (Returns (), w_cmd).
Proof.
  destruct (unregister_noop 1%nat "/nowhere" w_cmd) as (_ & Hnone & _).
  destruct (unregister_noop 2%nat "/cmd" w_cmd) as (_ & _ & Hother).
  assert (H2 : 2%nat ∉ clients mp_cmd).
  { simpl. rewrite elem_of_singleton. discriminate. }
  assert (Hne : clients mp_cmd <> ∅) by apply singleton_nonempty.
  split; [reflexivity|]. split; [exact (Hnone eq_refl)|].
  split; [reflexivity|]. split; [exact H2|]. split; [exact Hne|].
  exact (Hother mp_cmd eq_refl H2 Hne).
Defined.

(** Client 1 registers twice on [/cmd] and unregisters once. *)
Lemma register_is_idempotent_witness :
  register (R:=demo) (env 0) 1 "/cmd" (Some "std_msgs/String") PublisherManager_init =
    (Returns (), w_cmd)
  /\ register (R:=demo) (env 1) 1 "/cmd" None w_cmd = (Returns (), w_cmd)
  /\ _publishers (snd (unregister 1 "/cmd" w_cmd)) !! "/cmd" = None.
Proof.
  split; [reflexivity|].
  assert (H2 : exists w2, register (R:=demo) (env 1) 1 "/cmd" None w_cmd = (Returns (), w2)).
  { eexists. vm_compute. reflexivity. }
  destruct H2 as [w2 H2].
  destruct (register_is_idempotent 1%nat "/cmd") as [_ H].
  destruct (H (env 0) (env 1) (Some "std_msgs/String") None
              PublisherManager_init w_cmd w2 eq_refl H2)
    as (-> & mp & Hl & _ & _ & Hu).
  split; [exact H2|].
  rewrite Hu. injection Hl as <-. simpl. apply lookup_delete_eq.
Defined.

(** ** The further properties on the small instance *)

(** After one early send, the events of [late_sends] change nothing. *)
Lemma buffer_frozen_after_timeout_witness :
  timed_out (3 # 2) (listener_after [Send (1 # 2) "a"] l0) = true
  /\ Forall (fun ev => (3 # 2 <= event_time ev)%Q) late_sends
  /\ listener_after ([Send (1 # 2) "a"] ++ late_sends) l0 =
       listener_after [Send (1 # 2) "a"] l0.
Proof.
  assert (H1 : timed_out (3 # 2) (listener_after [Send (1 # 2) "a"] l0) = true)
    by reflexivity.
  assert (H2 : Forall (fun ev => (3 # 2 <= event_time ev)%Q) late_sends).
  { repeat constructor; discriminate. }
  split; [exact H1|]. split; [exact H2|].
  exact (proj1 (buffer_frozen_after_timeout l0 (3 # 2) [Send (1 # 2) "a"]
                  late_sends H1 H2)).
Defined.

(** The publisher of [/cmd] after the history [calls]. *)
Lemma publisher_listener_coupled_witness :
  exists mp,
    _publishers (run calls PublisherManager_init) !! "/cmd" = Some mp
    /\ coupled mp.
Proof.
  eexists. split; [vm_compute; reflexivity|].
  apply (proj1 (publisher_listener_coupled calls) "/cmd").
  vm_compute. reflexivity.
Defined.

(** [mp_late] stays as it is under the events of [early]. *)
Lemma detached_is_final_witness :
  coupled mp_late
  /\ attached (listener mp_late) = false
  /\ endpoint_after early mp_late = mp_late
  /\ endpoint_step (ESubscribe 4 9) (endpoint_after early mp_late) =
       (mp_late, []).
Proof.
  assert (Hc : coupled mp_late) by (repeat split).
  split; [exact Hc|]. split; [reflexivity|].
  destruct (detached_is_final mp_late early Hc eq_refl) as [H1 H2].
  split; [exact H1|exact (H2 (ESubscribe 4 9))].
Defined.

(** A subscriber arriving at time 1 is replayed the two messages that
    converted. *)
Lemma published_then_replayed_witness :
  coupled mp_cmd
  /\ attached (listener mp_cmd) = true
  /\ forallb (in_window (listener mp_cmd)) early = true
  /\ timed_out 1 (listener mp_cmd) = false
  /\ snd (endpoint_step (ESubscribe 1 5) (endpoint_after early mp_cmd)) =
       [PeerPublish 5 "a"; PeerPublish 5 "b"].
Proof.
  assert (Hc : coupled mp_cmd) by (repeat split).
  split; [exact Hc|]. split; [reflexivity|]. split; [reflexivity|].
  split; [reflexivity|].
  by rewrite (published_then_replayed mp_cmd early 1 5%nat Hc eq_refl eq_refl
                eq_refl).
Defined.

(** A publish on the established topic [/chatter], from the manager as
    created. *)
Lemma publish_forwards_once_witness :
  fst (publish (R:=demo) (env 0) 2 "/chatter" (JData "hi")
         PublisherManager_init) = Returns ()
  /\ ros_log (snd (publish (R:=demo) (env 0) 2 "/chatter" (JData "hi")
                     PublisherManager_init)) =
       [(0%nat, RosAdvertise "/chatter" StringMsg); (0%nat, RosPublish "hi")].
Proof.
  split; [reflexivity|].
  destruct (publish_forwards_once (R:=demo) (env 0) 2%nat "/chatter"
              (JData "hi") PublisherManager_init
              (snd (publish (R:=demo) (env 0) 2 "/chatter" (JData "hi")
                      PublisherManager_init))) as [H _].
  destruct (H eq_refl) as (mp & inst & Hl & Hpop & Hlog).
  rewrite Hlog. injection Hl as <-. injection Hpop as <-. reflexivity.
Defined.

(** A message that does not convert on [/cmd], and a topic nobody
    knows. *)
Lemma publish_outcomes_witness :
  fst (publish (R:=demo) (env 0) 2 "/cmd" JNoise w_cmd) =
    Raises ConversionException
  /\ get_topic_type (env 0) "/nowhere" = None
  /\ publish (R:=demo) (env 0) 2 "/nowhere" (JData "hi") w_cmd =
       (Raises (TopicNotEstablishedException "/nowhere"), w_cmd).
Proof.
  split; [exact (publish_outcomes (R:=demo) (env 0) 2%nat "/cmd" JNoise w_cmd)|].
  split; [reflexivity|].
  exact (publish_outcomes (R:=demo) (env 0) 2%nat "/nowhere" (JData "hi")
           w_cmd eq_refl).
Defined.

(** A publish on [/chatter] leaves [/cmd] alone. *)
Lemma other_topics_untouched_witness :
  call_topic (R:=demo) (Publish (R:=demo) (env 0) 2 "/chatter" (JData "hi")) =
    Some "/chatter"
  /\ "/chatter" <> "/cmd"
  /\ _publishers
       (snd (step (R:=demo) (Publish (R:=demo) (env 0) 2 "/chatter" (JData "hi"))
               w_cmd)) !! "/cmd"
     = Some mp_cmd.
Proof.
  assert (Hne : "/chatter" <> "/cmd") by discriminate.
  split; [reflexivity|]. split; [exact Hne|].
  by rewrite (other_topics_untouched (R:=demo)
                (Publish (R:=demo) (env 0) 2 "/chatter" (JData "hi"))
                "/chatter" "/cmd" w_cmd eq_refl Hne).
Defined.

(** A second client joins [/cmd] and leaves again; and the first client,
    whose [register] created the publisher, leaves. *)
Lemma register_unregister_roundtrip_witness :
  fst (register (R:=demo) (env 1) 2 "/cmd" None w_cmd) = Returns ()
  /\ (2%nat ∉ clients mp_cmd)
  /\ clients mp_cmd <> ∅
  /\ unregister 2 "/cmd" (snd (register (R:=demo) (env 1) 2 "/cmd" None w_cmd))
     = (Returns (), w_cmd)
  /\ _publishers (snd (unregister 1 "/cmd" w_cmd)) =
       _publishers PublisherManager_init
  /\ ros_log (snd (unregister 1 "/cmd" w_cmd)) =
       (ros_log w_cmd ++ [(0%nat, RosUnregister)])%list.
Proof.
  assert (H2 : 2%nat ∉ clients mp_cmd).
  { simpl. rewrite elem_of_singleton. discriminate. }
  assert (Hne : clients mp_cmd <> ∅) by apply singleton_nonempty.
  split; [reflexivity|]. split; [exact H2|]. split; [exact Hne|].
  pose proof (register_unregister_roundtrip (R:=demo) (env 1) 2%nat "/cmd" None
                w_cmd (snd (register (R:=demo) (env 1) 2 "/cmd" None w_cmd))
                eq_refl) as H.
  change (_publishers w_cmd !! "/cmd") with (Some mp_cmd) in H.
  split; [exact (H H2 Hne)|].
  pose proof (register_unregister_roundtrip (R:=demo) (env 0) 1%nat "/cmd"
                (Some "std_msgs/String") PublisherManager_init w_cmd eq_refl)
    as Hnew.
  change (_publishers PublisherManager_init !! "/cmd") with
    (@None (MultiPublisher (R:=demo))) in Hnew.
  destruct Hnew as (Hpubs & _ & Hlog). split; [exact Hpubs|exact Hlog].
Defined.

(** The only client of [/cmd] unregisters from everything. *)
Lemma unregister_all_leaves_witness :
  fst (unregister_all 1 w_cmd) = Returns ()
  /\ _publishers (snd (unregister_all 1 w_cmd)) !! "/cmd" = None.
Proof.
  destruct (unregister_all_leaves 1%nat w_cmd) as (H1 & H2 & _).
  split; [exact H1|]. rewrite H2. reflexivity.
Defined.



(** The first publish on [/cmd] reads the clock on both sides of the
    end of the window. *)
Lemma first_publish_witness :
  _publishers PublisherManager_init !! "/cmd" = None
  /\ register (R:=demo) (env 0) 1 "/cmd" (Some "std_msgs/String")
       PublisherManager_init = (Returns (), w_cmd)
  /\ exists mp2,
       _publishers (snd (publish (R:=demo) env_straddle 1 "/cmd" (JData "x")
                           w_cmd)) !! "/cmd" = Some mp2
       /\ listener mp2 = mkListener 0 [] true.
Proof.
  split; [reflexivity|]. split; [reflexivity|].
  destruct (first_publish (R:=demo) (env 0) 1%nat "/cmd"
              (Some "std_msgs/String") PublisherManager_init w_cmd
              env_straddle 1%nat (JData "x") eq_refl eq_refl)
    as (mp1 & Hl1 & _ & H).
  injection Hl1 as <-.
  destruct (H "x" eq_refl) as (mp2 & Hl2 & _ & Hlis & _).
  exists mp2. split; [exact Hl2|]. exact Hlis.
Defined.
